(** * Book review graphs: recommendations, clustering and score prediction

    A shallow embedding of [part1.py] (class [Graph]), [recommendations.py]
    (class [WeightedGraph]), [part3.py] (agglomerative clustering) and
    [predictions.py] (review score predictors), with the properties of the
    design document stated and settled against it.

    Modelling conventions.
    - A Python [dict] whose iteration order is observable ([Graph._vertices])
      is an association list in insertion order; a [set] or [dict] whose
      order is never observable (the neighbours of a vertex) is a [gset] or
      a [gmap].
    - A reference to a vertex object is the item key under which the graph
      stores that vertex: vertices are created by [add_vertex] only, one per
      key, so object identity and key identity coincide.
    - A Python exception is a value [Raise e] of the [result] type.
    - An item key is a [string], ordered as Python orders [str]: by the
      codes of its characters, lexicographically.
    - An edge weight ([Union[int, float]]) and a similarity score are
      rationals of [Q]. A float obtained by dividing two lengths is the exact
      quotient; two such quotients compare as the floats do as long as the
      lengths stay below 2^26.
    - The arithmetic that the code does on edge weights ([sum], [*], [/],
      [round] and the comparisons of their results) is float arithmetic: it
      rounds, and it raises [OverflowError] on an [int] too large for a
      float. Its results are not rationals of [Q]; they are taken from a
      structure [arith] that every definition doing such arithmetic has as
      its first argument, and every property is proved for all of them. *)

From Stdlib Require Import QArith Qround Lqa.
From Stdlib Require Import OrdersEx.
From stdpp Require Import gmap strings list fin_maps sorting.

Local Open Scope string_scope.
Local Open Scope nat_scope.

(** ** Exceptions *)

Inductive error : Type :=
  | ValueError
  | KeyError
  | IndexError
  | ZeroDivisionError
  | AttributeError
  | NotImplementedError
  | OverflowError.

Inductive result (A : Type) : Type :=
  | Ok (a : A)
  | Raise (e : error).

Arguments Ok {A} a.
Arguments Raise {A} e.

#[global] Instance result_bind : MBind result :=
  fun A B (k : A -> result B) (r : result A) =>
    match r with
    | Ok a => k a
    | Raise e => Raise e
    end.

(** [for x in l: s = f(s, x)] where the body may raise. *)
Fixpoint for_each {A S : Type} (f : S -> A -> result S) (l : list A) (s : S)
  : result S :=
  match l with
  | [] => Ok s
  | x :: l' => s' ← f s x; for_each f l' s'
  end.

(** [[x for x in l if p(x)]] where the test may raise. *)
Fixpoint filter_r {A : Type} (p : A -> result bool) (l : list A)
  : result (list A) :=
  match l with
  | [] => Ok []
  | x :: l' =>
      b ← p x;
      r ← filter_r p l';
      Ok (if (b : bool) then x :: r else r)
  end.

(** [[f(x) for x in l]] where [f] may raise. *)
Fixpoint map_r {A B : Type} (f : A -> result B) (l : list A)
  : result (list B) :=
  match l with
  | [] => Ok []
  | x :: l' => y ← f x; r ← map_r f l'; Ok (y :: r)
  end.

(** ** Insertion-ordered dictionaries with string keys *)

Section Dict.
Context {V : Type}.

Fixpoint dict_get (d : list (string * V)) (k : string) : option V :=
  match d with
  | [] => None
  | (k', v) :: d' => if String.eqb k' k then Some v else dict_get d' k
  end.

(** [k in d] *)
Definition dict_mem (d : list (string * V)) (k : string) : bool :=
  match dict_get d k with
  | Some _ => true
  | None => false
  end.

(** [d[k] = v] for a key that is absent: the entry goes last. *)
Definition dict_add (d : list (string * V)) (k : string) (v : V)
  : list (string * V) :=
  d ++ [(k, v)].

(** In-place mutation of the object stored under [k]. *)
Fixpoint dict_alter (f : V -> V) (k : string) (d : list (string * V))
  : list (string * V) :=
  match d with
  | [] => []
  | (k', v) :: d' =>
      if String.eqb k' k then (k', f v) :: d'
      else (k', v) :: dict_alter f k d'
  end.

Definition dict_keys (d : list (string * V)) : list string := map fst d.
Definition dict_values (d : list (string * V)) : list V := map snd d.
End Dict.

(** Python's [>] on [str]. *)
Definition str_gt (a b : string) : bool :=
  match String_as_OT.compare a b with
  | Gt => true
  | _ => false
  end.

(** Python's [>], [==] and [!= 0] on the similarity scores. *)
Definition Qgt_bool (a b : Q) : bool := negb (Qle_bool a b).
Definition Qnonzero (a : Q) : bool := negb (Qeq_bool a 0).

(** [l[:k]] for any integer [k]. *)
Definition slice_to {A : Type} (l : list A) (k : Z) : list A :=
  if (0 <=? k)%Z then take (Z.to_nat k) l
  else take (Z.to_nat (Z.of_nat (length l) + k)) l.

(** ** The ranking loops of [recommend_books]

    The three copies of the double loop in the source differ in the score
    method only; [score] is that method applied to the query vertex. *)

(** What the returned list holds: a title, or a vertex object when the
    conversion to titles is not reached. *)
Inductive entry (V : Type) : Type :=
  | Title (t : string)
  | VertexObj (v : V).

Arguments Title {V} t.
Arguments VertexObj {V} v.

Section Ranking.
Context {V : Type}.
Variable score : V -> result Q.
Variable item_of : V -> string.

(** [pos_books[i], pos_books[j] = pos_books[j], pos_books[i]] *)
Definition swap (l : list V) (i j : nat) : result (list V) :=
  match l !! i, l !! j with
  | Some a, Some b => Ok (<[j:=a]> (<[i:=b]> l))
  | _, _ => Raise IndexError
  end.

(** The body of the inner loop. *)
Definition rank_body (i : nat) (l : list V) (j : nat) : result (list V) :=
  if j <? i then
    match l !! i, l !! j with
    | Some a, Some b =>
        sa ← score a;
        sb ← score b;
        if Qgt_bool sa sb then swap l i j
        else if Qeq_bool sa sb && str_gt (item_of a) (item_of b)
             then swap l i j
             else Ok l
    | _, _ => Raise IndexError
    end
  else Ok l.

Definition rank_inner (l : list V) (i : nat) : result (list V) :=
  for_each (rank_body i) (seq 0 (length l)) l.

Definition rank_loops (l : list V) : result (list V) :=
  for_each rank_inner (seq 0 (length l)) l.

(** Step 3: drop the zero scores. *)
Definition drop_zero (l : list V) : result (list V) :=
  filter_r (fun x => s ← score x; Ok (Qnonzero s)) l.

(** Steps 4 and 5. *)
Definition cut (l : list V) (limit : Z) : list (entry V) :=
  if (limit <=? Z.of_nat (length l))%Z
  then map (fun x => Title (item_of x)) (slice_to l (limit + 1))
  else map VertexObj l.

Definition rank (pos_books : list V) (limit : Z) : result (list (entry V)) :=
  l1 ← rank_loops pos_books;
  l2 ← drop_zero l1;
  Ok (cut l2 limit).
End Ranking.

(** ** [part1.py]: the unweighted graph *)

Module Part1.

Record _Vertex : Type := Build_Vertex {
  item : string;
  kind : string;
  neighbours : gset string
}.

Definition degree (self : _Vertex) : nat := size (neighbours self).

Definition similarity_score (self other : _Vertex) : Q :=
  if (degree self =? 0) || (degree other =? 0) then 0%Q
  else (inject_Z (Z.of_nat (size (neighbours self ∩ neighbours other)))
        / inject_Z (Z.of_nat (size (neighbours self ∪ neighbours other))))%Q.

(** [Graph._vertices] *)
Abbreviation Graph := (list (string * _Vertex)).

(** [Graph.__init__] *)
Definition init : Graph := [].

Definition add_vertex (g : Graph) (item : string) (kind : string) : Graph :=
  if negb (dict_mem g item) then dict_add g item (Build_Vertex item kind ∅)
  else g.

(** [v.neighbours.add(u)] *)
Definition add_neighbour (u : string) (v : _Vertex) : _Vertex :=
  Build_Vertex (item v) (kind v) (neighbours v ∪ {[u]}).

Definition add_edge (g : Graph) (item1 item2 : string) : result Graph :=
  if dict_mem g item1 && dict_mem g item2 then
    Ok (dict_alter (add_neighbour item1) item2
          (dict_alter (add_neighbour item2) item1 g))
  else Raise ValueError.

(** The [item] of the vertex a neighbour reference points to is the
    reference itself. *)
Definition adjacent (g : Graph) (item1 item2 : string) : bool :=
  if dict_mem g item1 && dict_mem g item2 then
    match dict_get g item1 with
    | Some v1 =>
        existsb (fun v2 => String.eqb v2 item2) (elements (neighbours v1))
    | None => false
    end
  else false.

Definition get_neighbours (g : Graph) (item : string)
  : result (gset string) :=
  if dict_mem g item then
    match dict_get g item with
    | Some v => Ok (neighbours v)
    | None => Raise KeyError
    end
  else Raise ValueError.

Definition get_all_vertices (g : Graph) (kind_ : string) : gset string :=
  if negb (String.eqb kind_ "") then
    list_to_set
      (map item (filter (fun v => String.eqb (kind v) kind_ = true)
                        (dict_values g)))
  else list_to_set (dict_keys g).

(** [self._vertices[k]] *)
Definition vertex_at (g : Graph) (k : string) : result _Vertex :=
  match dict_get g k with
  | Some v => Ok v
  | None => Raise KeyError
  end.

Definition get_similarity_score (g : Graph) (item1 item2 : string)
  : result Q :=
  if negb (bool_decide (item1 ∈ get_all_vertices g ""))
     || negb (bool_decide (item2 ∈ get_all_vertices g ""))
  then Raise ValueError
  else
    v1 ← vertex_at g item1;
    v2 ← vertex_at g item2;
    Ok (similarity_score v1 v2).

(** Step 1 of [recommend_books]: a dict has one entry per key, so
    [self._vertices[x] for x in self._vertices] lists the values in
    insertion order. *)
Definition pos_books (g : Graph) : list _Vertex :=
  filter (fun v => String.eqb (kind v) "book" = true) (dict_values g).

(** [x.similarity_score(self._vertices[book])] *)
Definition score_to (g : Graph) (book : string) (x : _Vertex) : result Q :=
  b ← vertex_at g book;
  Ok (similarity_score x b).

Definition recommend_books (g : Graph) (book : string) (limit : Z)
  : result (list (entry _Vertex)) :=
  rank (score_to g book) item (pos_books g) limit.

End Part1.

(** ** Python's arithmetic on weights

    A value of [pynum] is a Python number: an [int], or a [float] with its
    infinities and its NaN. The operations are those the code applies to
    edge weights. Each of them may round its result, and each may raise, as
    [*], [/] and [sum] raise [OverflowError] when an [int] operand is too
    large for a float and [round] raises on an infinity or a NaN. Three
    facts about them are used, all three true of Python: the sum of no
    numbers is 0; 0 is not greater than 0; and the sum of the numbers of a
    list that is not empty, all of them between 0 and 1, divided by the
    length of the list, is computed without an error and is greater
    than -1. *)
Record arith : Type := {
  pynum : Type;
  (** the number that the rational [q] stands for: a stored weight, a
      similarity score, a length or a literal *)
  num_of : Q -> pynum;
  (** [sum(l)] *)
  num_sum : list pynum -> result pynum;
  (** [x * y] *)
  num_mul : pynum -> pynum -> result pynum;
  (** [x / y] for a [y] that is not 0 *)
  num_div : pynum -> pynum -> result pynum;
  (** [x > y] *)
  num_gt : pynum -> pynum -> bool;
  (** [round(x)] *)
  num_round : pynum -> result Z;
  num_sum_nil : num_sum [] = Ok (num_of 0%Q);
  num_gt_zero : num_gt (num_of 0%Q) (num_of 0%Q) = false;
  num_unit_mean : forall ws : list Q,
    ws <> [] -> Forall (fun w => (0 <= w)%Q /\ (w <= 1)%Q) ws ->
    exists s q,
      num_sum (map num_of ws) = Ok s /\
      num_div s (num_of (inject_Z (Z.of_nat (length ws)))) = Ok q /\
      num_gt q (num_of (-1)%Q) = true
}.

(** ** [recommendations.py]: the weighted graph *)

Module Weighted.

Record _WeightedVertex : Type := Build_WeightedVertex {
  item : string;
  kind : string;
  neighbours : gmap string Q
}.

Definition degree (self : _WeightedVertex) : nat := size (neighbours self).

Definition similarity_score_unweighted (self other : _WeightedVertex) : Q :=
  if (degree self =? 0) || (degree other =? 0) then 0%Q
  else
    let n : gset string := dom (neighbours self) in
    let o : gset string := dom (neighbours other) in
    (inject_Z (Z.of_nat (size (n ∩ o)))
     / inject_Z (Z.of_nat (size (n ∪ o))))%Q.

(** [WeightedGraph._vertices] *)
Abbreviation WeightedGraph := (list (string * _WeightedVertex)).

(** [self._vertices[k]], also the dereference of a neighbour reference. *)
Definition vertex_at (g : WeightedGraph) (k : string)
  : result _WeightedVertex :=
  match dict_get g k with
  | Some v => Ok v
  | None => Raise KeyError
  end.

(** [z.neighbours[v]] *)
Definition weight_to (z : _WeightedVertex) (v : string) : result Q :=
  match neighbours z !! v with
  | Some w => Ok w
  | None => Raise KeyError
  end.

(** The neighbours of [self] are references into the graph [g], which is
    passed along to read [z.neighbours]; [self] and [other] as dictionary
    keys are the items they are stored under. A reference that pointed
    outside [g], which no Python object can, would raise [KeyError] here. *)
Definition similarity_score_strict (g : WeightedGraph)
    (self other : _WeightedVertex) : result Q :=
  if (degree self =? 0) || (degree other =? 0) then Ok 0%Q
  else
    let n : gset string := dom (neighbours self) in
    let o : gset string := dom (neighbours other) in
    let no := n ∩ o in
    same ← filter_r (fun z =>
              zv ← vertex_at g z;
              a ← weight_to zv (item self);
              b ← weight_to zv (item other);
              Ok (Qeq_bool a b)) (elements no);
    Ok (inject_Z (Z.of_nat (length same))
        / inject_Z (Z.of_nat (size (n ∪ o))))%Q.

Definition init : WeightedGraph := [].

Definition add_vertex (g : WeightedGraph) (item : string) (kind : string)
  : WeightedGraph :=
  if negb (dict_mem g item)
  then dict_add g item (Build_WeightedVertex item kind ∅)
  else g.

(** [v.neighbours[u] = weight] *)
Definition set_neighbour (u : string) (weight : Q) (v : _WeightedVertex)
  : _WeightedVertex :=
  Build_WeightedVertex (item v) (kind v) (<[u:=weight]> (neighbours v)).

Definition add_edge (g : WeightedGraph) (item1 item2 : string) (weight : Q)
  : result WeightedGraph :=
  if dict_mem g item1 && dict_mem g item2 then
    Ok (dict_alter (set_neighbour item1 weight) item2
          (dict_alter (set_neighbour item2 weight) item1 g))
  else Raise ValueError.

(** Inherited from [Graph]; iterating a dict iterates its keys. *)
Definition adjacent (g : WeightedGraph) (item1 item2 : string) : bool :=
  if dict_mem g item1 && dict_mem g item2 then
    match dict_get g item1 with
    | Some v1 =>
        existsb (fun v2 => String.eqb v2 item2)
                (elements (dom (neighbours v1)))
    | None => false
    end
  else false.

Definition get_neighbours (g : WeightedGraph) (item : string)
  : result (gset string) :=
  if dict_mem g item then
    match dict_get g item with
    | Some v => Ok (dom (neighbours v))
    | None => Raise KeyError
    end
  else Raise ValueError.

Definition get_all_vertices (g : WeightedGraph) (kind_ : string)
  : gset string :=
  if negb (String.eqb kind_ "") then
    list_to_set
      (map item (filter (fun v => String.eqb (kind v) kind_ = true)
                        (dict_values g)))
  else list_to_set (dict_keys g).

Definition get_weight (g : WeightedGraph) (item1 item2 : string)
  : result Q :=
  v1 ← vertex_at g item1;
  v2 ← vertex_at g item2;
  Ok (default 0%Q (neighbours v1 !! item2)).

(** The sum of the rationals of [l], from 0 and from the left. *)
Definition Qsum (l : list Q) : Q := foldl Qplus 0%Q l.

(** [v.neighbours.values()] *)
Definition weights (v : _WeightedVertex) : list Q :=
  map snd (map_to_list (neighbours v)).

(** [sum(v.neighbours.values()) / len(v.neighbours)]: the sum is taken
    first, and a length of 0 makes the division raise. The weights are
    summed in the order of [map_to_list]; Python sums them in the order of
    their insertion, which gives the same number when the weights are
    [int]s, as review scores are. *)
Definition average_weight (ar : arith) (g : WeightedGraph) (item : string)
  : result (pynum ar) :=
  if dict_mem g item then
    v ← vertex_at g item;
    s ← num_sum ar (map (num_of ar) (weights v));
    if length (weights v) =? 0 then Raise ZeroDivisionError
    else num_div ar s (num_of ar (inject_Z (Z.of_nat (length (weights v)))))
  else Raise ValueError.

Definition get_similarity_score (g : WeightedGraph) (item1 item2 : string)
    (score_type : string) : result Q :=
  if negb (bool_decide (item1 ∈ get_all_vertices g ""))
     || negb (bool_decide (item2 ∈ get_all_vertices g ""))
  then Raise ValueError
  else
    v1 ← vertex_at g item1;
    v2 ← vertex_at g item2;
    if String.eqb score_type "unweighted"
    then Ok (similarity_score_unweighted v1 v2)
    else similarity_score_strict g v1 v2.

Definition pos_books (g : WeightedGraph) : list _WeightedVertex :=
  filter (fun v => String.eqb (kind v) "book" = true) (dict_values g).

(** [x.similarity_score_unweighted(self._vertices[book])] or
    [x.similarity_score_strict(self._vertices[book])] *)
Definition score_to (g : WeightedGraph) (book : string)
    (score_type : string) (x : _WeightedVertex) : result Q :=
  b ← vertex_at g book;
  if String.eqb score_type "unweighted"
  then Ok (similarity_score_unweighted x b)
  else similarity_score_strict g x b.

Definition recommend_books (g : WeightedGraph) (book : string) (limit : Z)
    (score_type : string) : result (list (entry _WeightedVertex)) :=
  rank (score_to g book score_type) item (pos_books g) limit.

End Weighted.

(** ** [predictions.py]: review score predictors *)

Module Predictions.
Import Weighted.

(** [round(x)] of a rational [x]: to the nearest integer, a half to the
    even one. *)
Definition py_round (x : Q) : Z :=
  let f := Qfloor x in
  let r := (x - inject_Z f)%Q in
  match (r ?= 1 # 2)%Q with
  | Lt => f
  | Gt => (f + 1)%Z
  | Eq => if Z.even f then f else (f + 1)%Z
  end.

(** [ReviewScorePredictor.predict_review_score] *)
Definition ReviewScorePredictor (g : WeightedGraph) (user book : string)
  : result Q :=
  Raise NotImplementedError.

Definition FiveStarPredictor (g : WeightedGraph) (user book : string)
  : result Q :=
  if adjacent g user book then get_weight g user book
  else Ok 5%Q.

Definition BookAverageScorePredictor (ar : arith) (g : WeightedGraph)
    (user book : string) : result Q :=
  if adjacent g user book then get_weight g user book
  else
    a ← average_weight ar g book;
    r ← num_round ar a;
    Ok (inject_Z r).

(** The set [prev_revs] is iterated in the order of [elements], both
    times. *)
Definition SimilarUserPredictor (ar : arith) (score_type : string)
    (g : WeightedGraph) (user book : string) : result Q :=
  if adjacent g user book then get_weight g user book
  else
    prev_revs ← get_neighbours g book;
    products ← map_r (fun x =>
                  w ← get_weight g x book;
                  s ← get_similarity_score g x user score_type;
                  num_mul ar (num_of ar w) (num_of ar s))
                (elements prev_revs);
    numerator ← num_sum ar products;
    scores ← map_r (fun x =>
                s ← get_similarity_score g x user score_type;
                Ok (num_of ar s))
              (elements prev_revs);
    denominator ← num_sum ar scores;
    return_val ←
      (if num_gt ar denominator (num_of ar 0)
       then q ← num_div ar numerator denominator; num_round ar q
       else Ok 0%Z);
    if (return_val =? 0)%Z then
      a ← average_weight ar g book;
      r ← num_round ar a;
      Ok (inject_Z r)
    else Ok (inject_Z return_val).

End Predictions.

(** ** [part3.py]: agglomerative clustering *)

Module Part3.
Import Weighted.

(** A cluster list; a cluster object is identified by its position. *)
Abbreviation clusters_t := (list (gset string)).

(** The two sets are iterated in the order of [elements]; the sum is taken
    before the division, which raises when a cluster is empty. *)
Definition cross_cluster_weight (ar : arith) (g : WeightedGraph)
    (cluster1 cluster2 : gset string) : result (pynum ar) :=
  cluster_sum_list ←
    map_r (fun xy : string * string => get_weight g xy.1 xy.2)
          (x ← elements cluster1; y ← elements cluster2; [(x, y)]);
  s ← num_sum ar (map (num_of ar) cluster_sum_list);
  if size cluster1 * size cluster2 =? 0 then Raise ZeroDivisionError
  else num_div ar s
         (num_of ar (inject_Z (Z.of_nat (size cluster1 * size cluster2)))).

(** [clusters.remove(c)]: the first element equal to [c] goes. *)
Fixpoint list_remove (c : gset string) (clusters : clusters_t)
  : result clusters_t :=
  match clusters with
  | [] => Raise ValueError
  | c' :: rest =>
      if bool_decide (c' = c) then Ok rest
      else r ← list_remove c rest; Ok (c' :: r)
  end.

(** [[{book} for book in graph.get_all_vertices()]]; the set is iterated
    in the order of [elements]. *)
Definition singletons (g : WeightedGraph) : clusters_t :=
  map (fun book => {[book]}) (elements (get_all_vertices g "")).

(** [range(0, len(clusters) - num_clusters)] has this many elements. *)
Definition rounds (clusters : clusters_t) (num_clusters : Z) : nat :=
  Z.to_nat (Z.of_nat (length clusters) - num_clusters).

(** [best_c2.update(best_c1); clusters.remove(best_c1)], the two
    clusters given by their positions. *)
Definition merge (clusters : clusters_t) (best : option (nat * nat))
  : result clusters_t :=
  match best with
  | None => Raise AttributeError
  | Some (i1, i2) =>
      match clusters !! i1, clusters !! i2 with
      | Some c1, Some c2 =>
          list_remove c1 (<[i2 := c2 ∪ c1]> clusters)
      | _, _ => Raise IndexError
      end
  end.

(** The state of a scan: [best] and the positions of the best clusters. *)
Definition scan_t (ar : arith) : Type := pynum ar * option (nat * nat).

(** [best = -1] and no best clusters. *)
Definition scan_init (ar : arith) : scan_t ar := (num_of ar (-1)%Q, None).

Definition consider (ar : arith) (g : WeightedGraph) (clusters : clusters_t)
    (i1 i2 : nat) (st : scan_t ar) : result (scan_t ar) :=
  match clusters !! i1, clusters !! i2 with
  | Some c1, Some c2 =>
      score ← cross_cluster_weight ar g c1 c2;
      if num_gt ar score st.1 then Ok (score, Some (i1, i2)) else Ok st
  | _, _ => Raise IndexError
  end.

(** One iteration of the loop of [find_clusters_greedy]. *)
Definition greedy_step (ar : arith) (g : WeightedGraph)
    (clusters : clusters_t) : result clusters_t :=
  st ← for_each (fun st i1 =>
          for_each (fun st i2 => consider ar g clusters i1 i2 st)
                   (seq (i1 + 1) (length clusters - (i1 + 1))) st)
        (seq 0 (length clusters)) (scan_init ar);
  merge clusters st.2.

(** One iteration of the loop of [find_clusters_random]; [pick] is the
    number drawn by [random.choice] for this iteration. *)
Definition random_step (ar : arith) (g : WeightedGraph) (pick : nat)
    (clusters : clusters_t) : result clusters_t :=
  if length clusters =? 0 then Raise IndexError
  else
    let i1 := pick mod length clusters in
    st ← for_each (fun st i2 =>
            if negb (i1 =? i2) then consider ar g clusters i1 i2 st
            else Ok st)
          (seq 0 (length clusters)) (scan_init ar);
    merge clusters st.2.

(** [k] iterations of a loop body, the [t]-th one being [step t]. *)
Fixpoint iterate (step : nat -> clusters_t -> result clusters_t)
    (t k : nat) (clusters : clusters_t) : result clusters_t :=
  match k with
  | O => Ok clusters
  | S k' => c ← step t clusters; iterate step (S t) k' c
  end.

Definition find_clusters_greedy (ar : arith) (g : WeightedGraph)
    (num_clusters : Z) : result clusters_t :=
  let clusters := singletons g in
  iterate (fun _ => greedy_step ar g) 0 (rounds clusters num_clusters)
          clusters.

(** [draws t] models the outcome of the [t]-th call of [random.choice]. *)
Definition find_clusters_random (ar : arith) (draws : nat -> nat)
    (g : WeightedGraph) (num_clusters : Z) : result clusters_t :=
  let clusters := singletons g in
  iterate (fun t => random_step ar g (draws t)) 0
          (rounds clusters num_clusters) clusters.

End Part3.

(** ** Arithmetic without rounding

    The structure in which every number is its rational value and no
    operation rounds or raises: the arithmetic of the design document. The
    definitions are run with it on the sample networks. *)

Definition exact_arith : arith.
Proof.
  refine {| pynum := Q;
            num_of := fun q => q;
            num_sum := fun l => Ok (Weighted.Qsum l);
            num_mul := fun x y => Ok (x * y)%Q;
            num_div := fun x y => Ok (x / y)%Q;
            num_gt := Qgt_bool;
            num_round := fun x => Ok (Predictions.py_round x) |}.
  - reflexivity.
  - reflexivity.
  - intros ws Hne Hws.
    assert (0 < length ws) as Hn by (destruct ws; [done | simpl; lia]).
    eexists _, _. split; [reflexivity|].
    split; [reflexivity|].
    assert (forall l acc, Forall (fun w => (0 <= w)%Q /\ (w <= 1)%Q) l ->
              (0 <= acc)%Q -> (0 <= foldl Qplus acc l)%Q) as Hsum.
    { induction l as [|w l IH]; intros acc Hl Hacc; [exact Hacc|].
      apply Forall_cons in Hl as [[Hw _] Hl]. cbn [foldl]. apply IH; [done|].
      by apply (Qplus_le_compat 0 acc 0 w). }
    rewrite map_id.
    assert (0 <= Weighted.Qsum ws / inject_Z (Z.of_nat (length ws)))%Q as Hq.
    { apply Qle_shift_div_l.
      - change 0%Q with (inject_Z 0). rewrite <- Zlt_Qlt. lia.
      - rewrite Qmult_0_l. apply Hsum; [done | apply Qle_refl]. }
    unfold Qgt_bool.
    destruct (Qle_bool (Weighted.Qsum ws / inject_Z (Z.of_nat (length ws)))
                       (-1)) eqn:Hle; [|done].
    apply Qle_bool_iff in Hle. exfalso. lra.
Defined.


(** ** Graphs built through the public operations *)

(** A construction call on a [Graph]. *)
Inductive call : Type :=
  | AddVertex (item kind : string)
  | AddEdge (item1 item2 : string).

(** A construction call on a [WeightedGraph]. *)
Inductive wcall : Type :=
  | WAddVertex (item kind : string)
  | WAddEdge (item1 item2 : string) (weight : Q).

(** A call that raises leaves the graph as it was. *)
Definition do_call (g : Part1.Graph) (c : call) : Part1.Graph :=
  match c with
  | AddVertex i k => Part1.add_vertex g i k
  | AddEdge a b =>
      match Part1.add_edge g a b with
      | Ok g' => g'
      | Raise _ => g
      end
  end.

Definition do_wcall (g : Weighted.WeightedGraph) (c : wcall)
  : Weighted.WeightedGraph :=
  match c with
  | WAddVertex i k => Weighted.add_vertex g i k
  | WAddEdge a b w =>
      match Weighted.add_edge g a b w with
      | Ok g' => g'
      | Raise _ => g
      end
  end.

Definition build (cs : list call) : Part1.Graph :=
  foldl do_call Part1.init cs.

Definition wbuild (cs : list wcall) : Weighted.WeightedGraph :=
  foldl do_wcall Weighted.init cs.

(** The two ends of an edge call differ. *)
Definition distinct_ends (c : call) : Prop :=
  match c with
  | AddVertex _ _ => True
  | AddEdge a b => a <> b
  end.

Definition wdistinct_ends (c : wcall) : Prop :=
  match c with
  | WAddVertex _ _ => True
  | WAddEdge a b _ => a <> b
  end.

(** No vertex holds itself as a neighbour. *)
Definition loop_free (g : Part1.Graph) : Prop :=
  forall k v, (k, v) ∈ g -> k ∉ Part1.neighbours v.

Definition wloop_free (g : Weighted.WeightedGraph) : Prop :=
  forall k v, (k, v) ∈ g -> k ∉ dom (Weighted.neighbours v).

(** The representation invariant of a weighted graph: one entry per key, each
    vertex stored under its own item, and every neighbour reference points
    to a vertex of the graph that refers back with the same weight. *)
Record wf (g : Weighted.WeightedGraph) : Prop := {
  wf_keys : NoDup (dict_keys g);
  wf_item : forall k v, dict_get g k = Some v -> Weighted.item v = k;
  wf_mirror : forall k v z w,
    dict_get g k = Some v -> Weighted.neighbours v !! z = Some w ->
    exists zv, dict_get g z = Some zv /\ Weighted.neighbours zv !! k = Some w
}.

(** ** The strict weighted similarity as the design document words it *)

(** The weight of the edge between [v] and [z], read at [v]. *)
Definition weight_of (v : Weighted._WeightedVertex) (z : string) : Q :=
  default 0%Q (Weighted.neighbours v !! z).

(** The common neighbours of [va] and [vb] whose edge weight to [va] equals
    their edge weight to [vb]. *)
Definition agreeing (va vb : Weighted._WeightedVertex) : gset string :=
  filter (fun z => Qeq_bool (weight_of va z) (weight_of vb z) = true)
         (dom (Weighted.neighbours va) ∩ dom (Weighted.neighbours vb)).

Definition strict_similarity_spec (va vb : Weighted._WeightedVertex) : Q :=
  if bool_decide (Weighted.degree va = 0 \/ Weighted.degree vb = 0) then 0%Q
  else (inject_Z (Z.of_nat (size (agreeing va vb)))
        / inject_Z (Z.of_nat
            (size (dom (Weighted.neighbours va)
                   ∪ dom (Weighted.neighbours vb)))))%Q.

(** What the two mutations of [WeightedGraph.add_edge] do to the vertex
    stored at [k]. *)
Definition edge_update (a b : string) (w : Q) (k : string)
    (v : Weighted._WeightedVertex) : Weighted._WeightedVertex :=
  (if String.eqb b k then Weighted.set_neighbour a w else id)
    ((if String.eqb a k then Weighted.set_neighbour b w else id) v).

(** ** A small review network

    Users [U1] and [U2]; books [A], [B], [C] and [D]. [U1] reviewed [A]
    (5), [B] (3) and [C] (4); [U2] reviewed [C] (4); nobody reviewed [D]. *)

Definition sample_calls : list call :=
  [AddVertex "U1" "user"; AddVertex "U2" "user";
   AddVertex "A" "book"; AddVertex "B" "book";
   AddVertex "C" "book"; AddVertex "D" "book";
   AddEdge "U1" "A"; AddEdge "U1" "B"; AddEdge "U1" "C"; AddEdge "U2" "C"].

Definition sample_wcalls : list wcall :=
  [WAddVertex "U1" "user"; WAddVertex "U2" "user";
   WAddVertex "A" "book"; WAddVertex "B" "book";
   WAddVertex "C" "book"; WAddVertex "D" "book";
   WAddEdge "U1" "A" 5; WAddEdge "U1" "B" 3;
   WAddEdge "U1" "C" 4; WAddEdge "U2" "C" 4].

Definition sample_graph : Part1.Graph := build sample_calls.
Definition sample_wgraph : Weighted.WeightedGraph := wbuild sample_wcalls.

(** One book with an edge to itself. *)
Definition loop_calls : list call := [AddVertex "x" "book"; AddEdge "x" "x"].
Definition loop_wcalls : list wcall :=
  [WAddVertex "x" "book"; WAddEdge "x" "x" 1].

(** The titles, or the items of the vertex objects, of a returned list. *)
Definition entry_items {V : Type} (item_of : V -> string)
    (l : list (entry V)) : list string :=
  map (fun e => match e with
                | Title t => t
                | VertexObj v => item_of v
                end) l.

(** Whether a returned list holds titles only. *)
Definition all_titles {V : Type} (l : list (entry V)) : bool :=
  forallb (fun e => match e with
                    | Title _ => true
                    | VertexObj _ => false
                    end) l.

(** ** The order of a ranked list *)

Section RankOrder.
Context {V : Type}.
Variable sc : V -> Q.
Variable item_of : V -> string.

(** The test of the ranking loops: [x], found later in the list than [y],
    is exchanged with it. *)
Definition outranks (x y : V) : bool :=
  Qgt_bool (sc x) (sc y)
  || (Qeq_bool (sc x) (sc y) && str_gt (item_of x) (item_of y)).

(** [x] may stand before [y]: the scores descend, and among equal scores
    the items descend. *)
Definition ranked_before (x y : V) : Prop :=
  (sc y <= sc x)%Q /\
  ((sc x == sc y)%Q -> str_gt (item_of y) (item_of x) = false).

(** The first [i] elements of [l] are ranked. *)
Definition ranked_upto (i : nat) (l : list V) : Prop :=
  forall p q x y, p < q -> q < i -> l !! p = Some x -> l !! q = Some y ->
                  outranks y x = false.

(** None of the first [j] elements of [l] is outranked by the one at [i]. *)
Definition settled (i j : nat) (l : list V) : Prop :=
  forall p x y, p < j -> p < i -> l !! p = Some x -> l !! i = Some y ->
                outranks y x = false.
End RankOrder.

(** The order the design document asks of a list of titles whose scores
    are given by [score_of]: equal scores stand in ascending item order. *)
Definition ties_ascending (score_of : string -> result Q)
    (titles : list string) : Prop :=
  forall p q t1 t2 s1 s2,
    p < q -> titles !! p = Some t1 -> titles !! q = Some t2 ->
    score_of t1 = Ok s1 -> score_of t2 = Ok s2 -> (s1 == s2)%Q ->
    str_gt t1 t2 = false.

(** The similarity of a vertex [v] of a weighted graph to the query vertex
    [wb], for the given score type. *)
Definition wscore (score_type : string)
    (wb v : Weighted._WeightedVertex) : Q :=
  if String.eqb score_type "unweighted"
  then Weighted.similarity_score_unweighted v wb
  else strict_similarity_spec v wb.

(** The vertices the sample graphs store under [C]. *)
Definition sample_C : Part1._Vertex :=
  Part1.Build_Vertex "C" "book" {["U1"; "U2"]}.

Definition sample_wC : Weighted._WeightedVertex :=
  Weighted.Build_WeightedVertex "C" "book" (<["U2" := 4%Q]> {["U1" := 4%Q]}).

(** ** Invariants of the clustering loops *)

(** Every stored edge weight is at least 0. *)
Definition nonneg_weights (g : Weighted.WeightedGraph) : bool :=
  forallb (fun kv : string * Weighted._WeightedVertex =>
             forallb (Qle_bool 0) (Weighted.weights kv.2)) g.

(** Every cluster is a non-empty set of vertices of the graph. *)
Definition cluster_inv (g : Weighted.WeightedGraph)
    (clusters : list (gset string)) : Prop :=
  Forall (fun c => c <> ∅ /\ c ⊆ Weighted.get_all_vertices g "") clusters.

(** Every stored edge weight lies between 0 and 1, as a similarity score
    does. *)
Definition unit_weights (g : Weighted.WeightedGraph) : bool :=
  forallb (fun kv : string * Weighted._WeightedVertex =>
             forallb (fun w => Qle_bool 0 w && Qle_bool w 1)
                     (Weighted.weights kv.2)) g.

(** A scan over [len] clusters has recorded a best pair of two different
    positions. *)
Definition found {ar : arith} (len : nat) (st : Part3.scan_t ar) : Prop :=
  exists i1 i2, st.2 = Some (i1, i2) /\ i1 < len /\ i2 < len /\ i1 <> i2.

(** A scan has either recorded a pair or is still in its initial state. *)
Definition scanning {ar : arith} (len : nat) (st : Part3.scan_t ar) : Prop :=
  found len st \/ st = Part3.scan_init ar.

(** [clusters'] is [clusters] after a merge: the cluster at one position
    has been united into the cluster at another position and has left the
    list. *)
Definition merged (clusters clusters' : list (gset string)) : Prop :=
  exists i1 i2 c1 c2,
    i1 <> i2 /\ clusters !! i1 = Some c1 /\ clusters !! i2 = Some c2 /\
    clusters' = delete i1 (<[i2 := c2 ∪ c1]> clusters).

(** The books of the sample network with an edge of weight 1/2 between [A]
    and [B]. *)
Definition book_wcalls : list wcall :=
  [WAddVertex "A" "book"; WAddVertex "B" "book"; WAddVertex "C" "book";
   WAddEdge "A" "B" (1 # 2)].

Definition book_wgraph : Weighted.WeightedGraph := wbuild book_wcalls.

(** The network of the design document's worked example: [U1] reviewed
    [B1] (5) and [B2] (3), [U2] reviewed [B1] (4); and a book [B3] rated
    2, 4 and 5 by three further users. *)
Definition example_wcalls : list wcall :=
  [WAddVertex "U1" "user"; WAddVertex "U2" "user";
   WAddVertex "V1" "user"; WAddVertex "V2" "user"; WAddVertex "V3" "user";
   WAddVertex "B1" "book"; WAddVertex "B2" "book"; WAddVertex "B3" "book";
   WAddEdge "U1" "B1" 5; WAddEdge "U1" "B2" 3; WAddEdge "U2" "B1" 4;
   WAddEdge "V1" "B3" 2; WAddEdge "V2" "B3" 4; WAddEdge "V3" "B3" 5].

Definition example_wgraph : Weighted.WeightedGraph := wbuild example_wcalls.

(** ** The representation invariant of the unweighted graph *)

(** One entry per key, each vertex stored under its own item, and every
    neighbour reference points to a vertex of the graph that refers back. *)
Record gwf (g : Part1.Graph) : Prop := {
  gwf_keys : NoDup (dict_keys g);
  gwf_item : forall k v, dict_get g k = Some v -> Part1.item v = k;
  gwf_mirror : forall k v z,
    dict_get g k = Some v -> z ∈ Part1.neighbours v ->
    exists zv, dict_get g z = Some zv /\ k ∈ Part1.neighbours zv
}.

(** What the two mutations of [Graph.add_edge] do to the vertex stored at
    [k]. *)
Definition link_update (a b : string) (k : string)
    (v : Part1._Vertex) : Part1._Vertex :=
  (if String.eqb b k then Part1.add_neighbour a else id)
    ((if String.eqb a k then Part1.add_neighbour b else id) v).

(** The sample network after [U2] rates [A] with 2. *)
Definition sample_wgraph_rated : Weighted.WeightedGraph :=
  do_wcall sample_wgraph (WAddEdge "U2" "A" 2).

(** ** Partitions *)

(** No two clusters of the list share a book. *)
Fixpoint pairwise_disjoint (clusters : list (gset string)) : Prop :=
  match clusters with
  | [] => True
  | c :: rest => Forall (fun c' => c ## c') rest /\ pairwise_disjoint rest
  end.

(** The clusters are non-empty, disjoint, and together hold exactly the
    elements of [V]. *)
Definition is_partition (V : gset string) (clusters : list (gset string))
  : Prop :=
  Forall (fun c => c <> ∅) clusters /\
  pairwise_disjoint clusters /\
  forall x, x ∈ V <-> exists c, c ∈ clusters /\ x ∈ c.

(** ** [part3.py]: the book graph *)

(** The two sets are iterated in the order of [elements]; the second one is
    taken anew from the graph under construction at every round of the
    outer loop. *)
Definition create_book_graph (review_graph : Weighted.WeightedGraph)
    (threshold : Q) (score_type : string) : result Weighted.WeightedGraph :=
  let new_wg :=
    foldl (fun g x => Weighted.add_vertex g x "book") Weighted.init
          (elements (Weighted.get_all_vertices review_graph "book")) in
  for_each (fun g x =>
      for_each (fun g y =>
          if negb (String.eqb x y) then
            s ← Weighted.get_similarity_score review_graph x y score_type;
            if Qgt_bool s threshold then
              w ← Weighted.get_similarity_score review_graph x y score_type;
              Weighted.add_edge g x y w
            else Ok g
          else Ok g)
        (elements (Weighted.get_all_vertices g "")) g)
    (elements (Weighted.get_all_vertices new_wg "")) new_wg.

(** Every edge of the book graph [bg] joins two different books whose
    similarity in [review_graph] is the edge weight and exceeds the
    threshold. *)
Definition edges_sound (review_graph : Weighted.WeightedGraph)
    (threshold : Q) (score_type : string) (bg : Weighted.WeightedGraph)
  : Prop :=
  forall k v z w,
    dict_get bg k = Some v -> Weighted.neighbours v !! z = Some w ->
    k <> z /\
    Weighted.get_similarity_score review_graph k z score_type = Ok w /\
    (threshold < w)%Q.

(** ** A weighted graph without its weights *)

(** [r] with its value mapped, an error kept. *)
Definition result_map {A B : Type} (f : A -> B) (r : result A) : result B :=
  match r with
  | Ok a => Ok (f a)
  | Raise e => Raise e
  end.

(** The [Graph] vertex with the neighbour keys of a weighted vertex. *)
Definition erase_vertex (v : Weighted._WeightedVertex) : Part1._Vertex :=
  Part1.Build_Vertex (Weighted.item v) (Weighted.kind v)
                     (dom (Weighted.neighbours v)).

Definition erase (g : Weighted.WeightedGraph) : Part1.Graph :=
  map (fun kv => (kv.1, erase_vertex kv.2)) g.

(** The construction call without its weight. *)
Definition forget (c : wcall) : call :=
  match c with
  | WAddVertex i k => AddVertex i k
  | WAddEdge a b _ => AddEdge a b
  end.

(** A returned entry with its vertex object replaced. *)
Definition entry_map {V W : Type} (h : W -> V) (e : entry W) : entry V :=
  match e with
  | Title t => Title t
  | VertexObj v => VertexObj (h v)
  end.
(** * Properties *)

(** ** The dictionaries *)

Section DictFacts.
Context {V : Type}.
Implicit Types (d : list (string * V)) (k : string) (v : V).

Lemma dict_mem_true d k : dict_mem d k = true <-> is_Some (dict_get d k).
Proof.
  unfold dict_mem. destruct (dict_get d k) as [v|]; split.
  - by eexists.
  - done.
  - done.
  - by intros [v Hv].
Qed.

Lemma dict_mem_false d k : dict_mem d k = false <-> dict_get d k = None.
Proof. unfold dict_mem. by destruct (dict_get d k). Qed.

Lemma dict_get_add d k v k' :
  dict_get (dict_add d k v) k' =
    match dict_get d k' with
    | Some x => Some x
    | None => if String.eqb k k' then Some v else None
    end.
Proof.
  unfold dict_add. induction d as [|[k0 v0] d IH]; simpl; [done|].
  by destruct (String.eqb k0 k').
Qed.

Lemma dict_get_alter (f : V -> V) d k k' :
  dict_get (dict_alter f k d) k' =
    if String.eqb k k' then f <$> dict_get d k' else dict_get d k'.
Proof.
  induction d as [|[k0 v0] d IH]; simpl.
  - by destruct (String.eqb k k').
  - destruct (String.eqb_spec k0 k) as [->|Hne]; simpl.
    + by destruct (String.eqb_spec k k').
    + destruct (String.eqb_spec k0 k') as [->|Hne'].
      * destruct (String.eqb_spec k k'); [congruence | done].
      * apply IH.
Qed.

Lemma dict_keys_alter (f : V -> V) d k :
  dict_keys (dict_alter f k d) = dict_keys d.
Proof.
  unfold dict_keys. induction d as [|[k0 v0] d IH]; simpl; [done|].
  destruct (String.eqb k0 k); simpl; by rewrite ?IH.
Qed.

Lemma dict_get_Some_elem d k v : dict_get d k = Some v -> (k, v) ∈ d.
Proof.
  induction d as [|[k0 v0] d IH]; simpl; [done|].
  destruct (String.eqb_spec k0 k) as [->|Hne].
  - intros [= ->]. apply list_elem_of_here.
  - intros H. apply list_elem_of_further. by apply IH.
Qed.

Lemma dict_get_None_keys d k : dict_get d k = None <-> k ∉ dict_keys d.
Proof.
  unfold dict_keys. induction d as [|[k0 v0] d IH]; simpl.
  - split; [intros _; apply not_elem_of_nil | done].
  - destruct (String.eqb_spec k0 k) as [->|Hne].
    + split; [done|]. intros H. exfalso. apply H. apply list_elem_of_here.
    + rewrite IH, not_elem_of_cons. naive_solver.
Qed.

Lemma dict_elem_get d k v :
  NoDup (dict_keys d) -> (k, v) ∈ d -> dict_get d k = Some v.
Proof.
  unfold dict_keys. induction d as [|[k0 v0] d IH]; simpl.
  - intros _ H. by apply elem_of_nil in H.
  - intros Hnd H. apply NoDup_cons in Hnd as [Hk0 Hnd].
    apply elem_of_cons in H as [[= -> ->]|H].
    + by rewrite String.eqb_refl.
    + destruct (String.eqb_spec k0 k) as [->|Hne]; [|by apply IH].
      exfalso. apply Hk0. apply (list_elem_of_fmap_2 fst) in H. exact H.
  Qed.
End DictFacts.

(** ** Adjacency and the predictors *)

Section PredictorFacts.
Import Weighted Predictions.
Implicit Types (g : WeightedGraph) (user book : string).

Lemma existsb_eqb_elements (s : gset string) (k : string) :
  existsb (fun x => String.eqb x k) (elements s) = true <-> k ∈ s.
Proof.
  rewrite existsb_exists. split.
  - intros (x & Hx & Heq). apply String.eqb_eq in Heq as ->.
    apply elem_of_elements. by apply list_elem_of_In.
  - intros Hk. exists k. split; [|apply String.eqb_refl].
    apply list_elem_of_In. by apply elem_of_elements.
Qed.

Lemma adjacent_true g user book :
  adjacent g user book = true <->
  exists u, dict_get g user = Some u /\ dict_mem g book = true
            /\ is_Some (neighbours u !! book).
Proof.
  unfold adjacent, dict_mem.
  destruct (dict_get g user) as [u|] eqn:Hu; simpl.
  - destruct (dict_get g book) as [b|] eqn:Hb; simpl.
    + rewrite existsb_eqb_elements, elem_of_dom. naive_solver.
    + naive_solver.
  - naive_solver.
Qed.

Lemma adjacent_absent g user book :
  dict_get g user = None \/ dict_get g book = None ->
  adjacent g user book = false.
Proof.
  intros H. unfold adjacent, dict_mem.
  destruct H as [-> | ->]; [done|]. by destruct (dict_get g user).
Qed.

Lemma get_weight_stored g user book u w :
  dict_get g user = Some u -> dict_mem g book = true ->
  neighbours u !! book = Some w ->
  get_weight g user book = Ok w.
Proof.
  intros Hu Hb Hw. apply dict_mem_true in Hb as [b Hb].
  unfold get_weight, vertex_at. rewrite Hu, Hb. simpl. by rewrite Hw.
Qed.

Lemma average_weight_no_reviews (ar : arith) g book b :
  dict_get g book = Some b -> neighbours b = ∅ ->
  average_weight ar g book = Raise ZeroDivisionError.
Proof.
  intros Hb Hn. unfold average_weight, dict_mem, vertex_at, weights.
  rewrite Hb. simpl. rewrite Hn, map_to_list_empty. simpl.
  by rewrite num_sum_nil.
Qed.

Lemma average_weight_absent (ar : arith) g book :
  dict_get g book = None -> average_weight ar g book = Raise ValueError.
Proof. intros Hb. unfold average_weight, dict_mem. by rewrite Hb. Qed.
End PredictorFacts.

(** ** The representation invariant holds for every graph that was built *)

Section Wellformed.
Import Weighted.
Implicit Types (g : WeightedGraph) (k a b z : string) (w : Q).

Lemma add_edge_Ok g a b w g' :
  add_edge g a b w = Ok g' ->
  dict_mem g a = true /\ dict_mem g b = true /\
  dict_keys g' = dict_keys g /\
  forall k, dict_get g' k = edge_update a b w k <$> dict_get g k.
Proof.
  unfold add_edge. destruct (dict_mem g a) eqn:Ha; [|done].
  destruct (dict_mem g b) eqn:Hb; [|done]. simpl. intros [= <-].
  repeat split.
  - by rewrite !dict_keys_alter.
  - intros k. rewrite !dict_get_alter. unfold edge_update.
    destruct (String.eqb b k), (String.eqb a k), (dict_get g k); done.
Qed.

Lemma edge_update_item a b w k v : item (edge_update a b w k v) = item v.
Proof.
  unfold edge_update. by destruct (String.eqb b k), (String.eqb a k).
Qed.

Lemma edge_update_lookup a b w k v z :
  neighbours (edge_update a b w k v) !! z =
    if decide ((b = k /\ z = a) \/ (a = k /\ z = b)) then Some w
    else neighbours v !! z.
Proof.
  unfold edge_update.
  destruct (String.eqb_spec b k) as [Hb|Hb], (String.eqb_spec a k) as [Ha|Ha];
    simpl; rewrite ?lookup_insert; repeat case_decide; naive_solver.
Qed.

Lemma wf_init : wf init.
Proof.
  split; simpl.
  - apply NoDup_nil_2.
  - done.
  - done.
Qed.

Lemma wf_add_vertex g i kd : wf g -> wf (add_vertex g i kd).
Proof.
  intros [Hk Hi Hm]. unfold add_vertex.
  destruct (dict_mem g i) eqn:Hmem; simpl; [by split|].
  apply dict_mem_false in Hmem.
  split.
  - unfold dict_add, dict_keys. rewrite map_app. simpl.
    apply NoDup_app. split; [exact Hk|]. split; [|apply NoDup_singleton].
    intros x Hx Hx'. apply list_elem_of_singleton in Hx' as ->.
    by apply dict_get_None_keys in Hmem.
  - intros k v. rewrite dict_get_add.
    destruct (dict_get g k) as [v0|] eqn:Hg.
    + intros [= <-]. by apply Hi.
    + destruct (String.eqb_spec i k) as [->|]; [|done]. by intros [= <-].
  - intros k v z w. rewrite dict_get_add.
    destruct (dict_get g k) as [v0|] eqn:Hg.
    + intros [= <-] Hz. destruct (Hm _ _ _ _ Hg Hz) as (zv & Hzv & Hkz).
      exists zv. split; [|done]. by rewrite dict_get_add, Hzv.
    + destruct (String.eqb_spec i k) as [->|]; [|done].
      intros [= <-]. simpl. by rewrite lookup_empty.
Qed.

Lemma wf_add_edge g a b w g' : wf g -> add_edge g a b w = Ok g' -> wf g'.
Proof.
  intros [Hk Hi Hm] Hadd.
  apply add_edge_Ok in Hadd as (Ha & Hb & Hkeys & Hget).
  apply dict_mem_true in Ha as [va Hva]. apply dict_mem_true in Hb as [vb Hvb].
  split.
  - by rewrite Hkeys.
  - intros k v. rewrite Hget. destruct (dict_get g k) as [v0|] eqn:Hg; [|done].
    simpl. intros [= <-]. rewrite edge_update_item. by apply Hi.
  - intros k v z w'. rewrite Hget.
    destruct (dict_get g k) as [v0|] eqn:Hg; [|done].
    simpl. intros [= <-]. rewrite edge_update_lookup.
    destruct (decide ((b = k /\ z = a) \/ (a = k /\ z = b)))
      as [[[-> ->] | [-> ->]] | Hno].
    + intros [= <-]. exists (edge_update a k w a va).
      rewrite Hget, Hva. split; [done|]. rewrite edge_update_lookup.
      rewrite decide_True; [done | by right].
    + intros [= <-]. exists (edge_update k b w b vb).
      rewrite Hget, Hvb. split; [done|]. rewrite edge_update_lookup.
      rewrite decide_True; [done | by left].
    + intros Hz. destruct (Hm _ _ _ _ Hg Hz) as (zv & Hzv & Hkz).
      exists (edge_update a b w z zv). rewrite Hget, Hzv. split; [done|].
      rewrite edge_update_lookup. rewrite decide_False; [done|].
      intros [[-> ->] | [-> ->]]; apply Hno; [by right | by left].
Qed.

Lemma wf_do_wcall g c : wf g -> wf (do_wcall g c).
Proof.
  intros Hwf. destruct c as [i kd | a b w]; simpl.
  - by apply wf_add_vertex.
  - destruct (add_edge g a b w) as [g'|e] eqn:Hadd; [|done].
    by eapply wf_add_edge.
Qed.

Lemma wf_wbuild cs : wf (wbuild cs).
Proof.
  unfold wbuild. generalize wf_init. generalize init.
  induction cs as [|c cs IH]; intros g Hg; simpl; [done|].
  apply IH. by apply wf_do_wcall.
Qed.

Lemma wf_value_get g v :
  wf g -> v ∈ dict_values g -> dict_get g (item v) = Some v.
Proof.
  intros [Hk Hi Hm] Hv. unfold dict_values in Hv.
  apply list_elem_of_fmap in Hv as ([k v'] & -> & Hin). simpl.
  pose proof (dict_elem_get _ _ _ Hk Hin) as Hget.
  by rewrite (Hi _ _ Hget).
Qed.
End Wellformed.

(** ** Self-loops *)

Section SelfLoops.
Implicit Types (k a b : string).

Lemma elem_of_dict_add_inv {V : Type} (d : list (string * V)) k (v : V) k' v' :
  (k', v') ∈ dict_add d k v -> (k', v') ∈ d \/ (k' = k /\ v' = v).
Proof.
  unfold dict_add. rewrite elem_of_app, list_elem_of_singleton.
  intros [H | [= -> ->]]; auto.
Qed.

Lemma elem_of_dict_alter_inv {V : Type} (f : V -> V) k
    (d : list (string * V)) k' v' :
  (k', v') ∈ dict_alter f k d ->
  (k', v') ∈ d \/ (k' = k /\ exists v, (k, v) ∈ d /\ v' = f v).
Proof.
  induction d as [|[k0 v0] d IH]; simpl; [auto|].
  destruct (String.eqb_spec k0 k) as [->|Hne].
  - rewrite !elem_of_cons. intros [[= -> ->] | H].
    + right. split; [done|]. exists v0. split; [|done]. by left.
    + left. by right.
  - rewrite elem_of_cons. intros [[= -> ->] | H].
    + left. apply list_elem_of_here.
    + destruct (IH H) as [H' | (-> & v & Hv & ->)].
      * left. by apply list_elem_of_further.
      * right. split; [done|]. exists v. split; [|done].
        by apply list_elem_of_further.
Qed.

Lemma loop_free_add_vertex g i kd :
  loop_free g -> loop_free (Part1.add_vertex g i kd).
Proof.
  intros Hg. unfold Part1.add_vertex. destruct (dict_mem g i); simpl; [done|].
  intros k v Hin. apply elem_of_dict_add_inv in Hin as [Hin | [-> ->]].
  - by apply Hg.
  - simpl. apply not_elem_of_empty.
Qed.

Lemma loop_free_add_edge g a b g' :
  a <> b -> loop_free g -> Part1.add_edge g a b = Ok g' -> loop_free g'.
Proof.
  intros Hab Hg. unfold Part1.add_edge.
  destruct (dict_mem g a && dict_mem g b); [|done]. intros [= <-].
  intros k v Hin.
  apply elem_of_dict_alter_inv in Hin as [Hin | (-> & v1 & Hin & ->)].
  - apply elem_of_dict_alter_inv in Hin as [Hin | (-> & v0 & Hin & ->)].
    + by apply Hg.
    + simpl. specialize (Hg _ _ Hin). set_solver.
  - apply elem_of_dict_alter_inv in Hin as [Hin | (-> & v0 & Hin & ->)].
    + simpl. specialize (Hg _ _ Hin). set_solver.
    + simpl. specialize (Hg _ _ Hin). set_solver.
Qed.

Lemma wloop_free_add_vertex g i kd :
  wloop_free g -> wloop_free (Weighted.add_vertex g i kd).
Proof.
  intros Hg. unfold Weighted.add_vertex.
  destruct (dict_mem g i); simpl; [done|].
  intros k v Hin. apply elem_of_dict_add_inv in Hin as [Hin | [-> ->]].
  - by apply Hg.
  - simpl. rewrite dom_empty. apply not_elem_of_empty.
Qed.

Lemma wloop_free_add_edge g a b w g' :
  a <> b -> wloop_free g -> Weighted.add_edge g a b w = Ok g' ->
  wloop_free g'.
Proof.
  intros Hab Hg. unfold Weighted.add_edge.
  destruct (dict_mem g a && dict_mem g b); [|done]. intros [= <-].
  intros k v Hin.
  apply elem_of_dict_alter_inv in Hin as [Hin | (-> & v1 & Hin & ->)].
  - apply elem_of_dict_alter_inv in Hin as [Hin | (-> & v0 & Hin & ->)].
    + by apply Hg.
    + simpl. specialize (Hg _ _ Hin). rewrite dom_insert. set_solver.
  - apply elem_of_dict_alter_inv in Hin as [Hin | (-> & v0 & Hin & ->)].
    + simpl. specialize (Hg _ _ Hin). rewrite dom_insert. set_solver.
    + simpl. specialize (Hg _ _ Hin). rewrite !dom_insert. set_solver.
Qed.

Lemma loop_free_foldl cs g :
  Forall distinct_ends cs -> loop_free g -> loop_free (foldl do_call g cs).
Proof.
  intros Hcs. revert g. induction Hcs as [|c cs Hc _ IH]; intros g Hg; [done|].
  simpl. apply IH. destruct c as [i kd | a b]; simpl.
  - by apply loop_free_add_vertex.
  - destruct (Part1.add_edge g a b) as [g'|e] eqn:Hadd; [|done].
    by eapply loop_free_add_edge.
Qed.

Lemma wloop_free_foldl cs g :
  Forall wdistinct_ends cs -> wloop_free g -> wloop_free (foldl do_wcall g cs).
Proof.
  intros Hcs. revert g. induction Hcs as [|c cs Hc _ IH]; intros g Hg; [done|].
  simpl. apply IH. destruct c as [i kd | a b w]; simpl.
  - by apply wloop_free_add_vertex.
  - destruct (Weighted.add_edge g a b w) as [g'|e] eqn:Hadd; [|done].
    by eapply wloop_free_add_edge.
Qed.
End SelfLoops.

(** ** Similarity scores *)

Section SimilarityFacts.
Import Weighted.
Implicit Types (g : WeightedGraph) (a b z : string).

Lemma filter_r_ext {A : Type} (p p' : A -> result bool) (l : list A) :
  (forall x, x ∈ l -> p x = p' x) -> filter_r p l = filter_r p' l.
Proof.
  induction l as [|x l IH]; intros Hext; simpl; [done|].
  rewrite (Hext x) by apply list_elem_of_here.
  rewrite IH; [done|]. intros y Hy. apply Hext. by apply list_elem_of_further.
Qed.

Lemma filter_r_total {A : Type} (p : A -> result bool) (q : A -> bool)
    (l : list A) :
  (forall x, x ∈ l -> p x = Ok (q x)) ->
  filter_r p l = Ok (filter (fun x => q x = true) l).
Proof.
  induction l as [|x l IH]; intros Hp; simpl; [done|].
  rewrite (Hp x) by apply list_elem_of_here. simpl.
  rewrite IH by (intros y Hy; apply Hp; by apply list_elem_of_further).
  simpl. rewrite filter_cons. by destruct (q x).
Qed.

Lemma Qeq_bool_comm (x y : Q) : Qeq_bool x y = Qeq_bool y x.
Proof. unfold Qeq_bool. apply Z.eqb_sym. Qed.

Lemma similarity_score_comm (va vb : Part1._Vertex) :
  Part1.similarity_score va vb = Part1.similarity_score vb va.
Proof.
  unfold Part1.similarity_score. rewrite orb_comm.
  by rewrite (comm_L (∩) (Part1.neighbours va)),
    (comm_L (∪) (Part1.neighbours va)).
Qed.

Lemma dom_inter_comm (va vb : _WeightedVertex) :
  dom (neighbours va) ∩ dom (neighbours vb)
  =@{gset string} dom (neighbours vb) ∩ dom (neighbours va).
Proof. set_solver. Qed.

Lemma dom_union_comm (va vb : _WeightedVertex) :
  dom (neighbours va) ∪ dom (neighbours vb)
  =@{gset string} dom (neighbours vb) ∪ dom (neighbours va).
Proof. set_solver. Qed.

Lemma similarity_score_unweighted_comm (va vb : _WeightedVertex) :
  similarity_score_unweighted va vb = similarity_score_unweighted vb va.
Proof.
  unfold similarity_score_unweighted. rewrite orb_comm. simpl.
  by rewrite (dom_inter_comm va vb), (dom_union_comm va vb).
Qed.

Lemma similarity_score_strict_comm g (va vb : _WeightedVertex) :
  similarity_score_strict g va vb = similarity_score_strict g vb va.
Proof.
  unfold similarity_score_strict. rewrite orb_comm. simpl.
  rewrite (dom_inter_comm va vb), (dom_union_comm va vb).
  destruct ((degree vb =? 0) || (degree va =? 0)); [done|].
  f_equal. apply filter_r_ext. intros z _.
  destruct (vertex_at g z) as [zv|e]; simpl; [|done].
  unfold weight_to.
  destruct (neighbours zv !! item va), (neighbours zv !! item vb); simpl;
    try done.
  by rewrite Qeq_bool_comm.
Qed.

Lemma elem_of_all_vertices g a :
  a ∈ get_all_vertices g "" <-> is_Some (dict_get g a).
Proof.
  unfold get_all_vertices. simpl. rewrite elem_of_list_to_set.
  destruct (dict_get g a) as [v|] eqn:Hget.
  - split; [by eexists|]. intros _.
    apply dict_get_Some_elem in Hget.
    apply (list_elem_of_fmap_2 fst) in Hget. exact Hget.
  - split; [|by intros [? ?]]. intros Hin.
    by apply dict_get_None_keys in Hget.
Qed.

(** On a well-formed graph the strict score never fails, and it counts the
    common neighbours on whose weight the two vertices agree. *)
Lemma similarity_score_strict_wf g a b va vb :
  wf g -> dict_get g a = Some va -> dict_get g b = Some vb ->
  similarity_score_strict g va vb = Ok (strict_similarity_spec va vb).
Proof.
  intros Hwf Ha Hb. unfold similarity_score_strict, strict_similarity_spec.
  destruct (Nat.eqb_spec (degree va) 0) as [Hda|Hda]; simpl.
  { rewrite bool_decide_eq_true_2; [done | by left]. }
  destruct (Nat.eqb_spec (degree vb) 0) as [Hdb|Hdb]; simpl.
  { rewrite bool_decide_eq_true_2; [done | by right]. }
  rewrite bool_decide_eq_false_2 by (intros [?|?]; done).
  rewrite (filter_r_total _
    (fun z => Qeq_bool (weight_of va z) (weight_of vb z))).
  - simpl. do 3 f_equal. unfold agreeing, filter, set_filter.
    rewrite size_list_to_set; [done|].
    apply NoDup_filter, NoDup_elements.
  - intros z Hz. apply elem_of_elements, elem_of_intersection in Hz as [Hza Hzb].
    apply elem_of_dom in Hza as [wa Hwa]. apply elem_of_dom in Hzb as [wb Hwb].
    destruct (wf_mirror g Hwf _ _ _ _ Ha Hwa) as (zv & Hzv & Haz).
    destruct (wf_mirror g Hwf _ _ _ _ Hb Hwb) as (zv' & Hzv' & Hbz).
    rewrite Hzv in Hzv'. injection Hzv' as <-.
    unfold vertex_at, weight_of. rewrite Hzv, Hwa, Hwb. simpl.
    rewrite (wf_item g Hwf _ _ Ha), (wf_item g Hwf _ _ Hb).
    unfold weight_to. by rewrite Haz, Hbz.
Qed.
End SimilarityFacts.

(** ** The ranking loops sort *)

Lemma str_lt_irrefl (a : string) : ~ String_as_OT.lt a a.
Proof. apply (StrictOrder_Irreflexive (R := String_as_OT.lt)). Qed.

Lemma str_lt_trans (a b c : string) :
  String_as_OT.lt a b -> String_as_OT.lt b c -> String_as_OT.lt a c.
Proof. apply (StrictOrder_Transitive (R := String_as_OT.lt)). Qed.

Lemma str_gt_lt (a b : string) : str_gt a b = true <-> String_as_OT.lt b a.
Proof.
  unfold str_gt.
  destruct (String_as_OT.compare_spec a b) as [Heq|Hlt|Hgt]; split; try done.
  - intros Hlt. red in Heq. subst. by apply str_lt_irrefl in Hlt.
  - intros Hgt. exfalso. apply (str_lt_irrefl a). by apply str_lt_trans with b.
Qed.

Lemma Qgt_bool_lt (a b : Q) : Qgt_bool a b = true <-> (b < a)%Q.
Proof.
  unfold Qgt_bool. rewrite negb_true_iff. split.
  - intros H. apply Qnot_le_lt. intros Hle. apply Qle_bool_iff in Hle.
    congruence.
  - intros H. destruct (Qle_bool a b) eqn:Hle; [|done].
    apply Qle_bool_iff in Hle. by apply Qlt_not_le in H.
Qed.

Lemma for_each_seq_inv {S : Type} (f : S -> nat -> result S)
    (Inv : nat -> S -> Prop) (start len : nat) (s : S) :
  Inv start s ->
  (forall j s, start <= j < start + len -> Inv j s ->
               exists s', f s j = Ok s' /\ Inv (Datatypes.S j) s') ->
  exists s', for_each f (seq start len) s = Ok s' /\ Inv (start + len) s'.
Proof.
  revert start s. induction len as [|len IH]; intros start s Hs Hstep; simpl.
  - exists s. by rewrite Nat.add_0_r.
  - destruct (Hstep start s) as (s1 & Hf & Hs1); [lia | done |].
    rewrite Hf. simpl.
    destruct (IH (Datatypes.S start) s1) as (s' & Hrun & Hs'); [done | |].
    + intros j s2 Hj. apply Hstep. lia.
    + exists s'. split; [done|].
      by replace (start + Datatypes.S len) with (Datatypes.S start + len) by lia.
Qed.

Section RankingFacts.
Context {V : Type}.
Variable score : V -> result Q.
Variable item_of : V -> string.
Variable sc : V -> Q.

Local Abbreviation beats := (outranks sc item_of).
Local Abbreviation before := (ranked_before sc item_of).
Local Abbreviation upto := (ranked_upto sc item_of).
Local Abbreviation settled_at := (settled sc item_of).

Lemma outranks_true x y :
  beats x y = true <->
  (sc y < sc x)%Q \/
  ((sc x == sc y)%Q /\ String_as_OT.lt (item_of y) (item_of x)).
Proof.
  unfold outranks.
  rewrite orb_true_iff, andb_true_iff, Qgt_bool_lt, Qeq_bool_iff, str_gt_lt.
  done.
Qed.

Lemma outranks_asym x y : beats x y = true -> beats y x = false.
Proof.
  intros H. apply not_true_is_false. intros H'.
  apply outranks_true in H as [H | [He Hs]];
    apply outranks_true in H' as [H' | [He' Hs']].
  - apply (Qlt_irrefl (sc x)). by apply Qlt_trans with (sc y).
  - apply Qlt_not_eq in H. apply H. done.
  - apply Qlt_not_eq in H'. apply H'. done.
  - apply (str_lt_irrefl (item_of x)). by apply str_lt_trans with (item_of y).
Qed.

Lemma outranks_trans x y z :
  beats x y = true -> beats y z = true -> beats x z = true.
Proof.
  intros H H'. apply outranks_true.
  apply outranks_true in H as [H | [He Hs]];
    apply outranks_true in H' as [H' | [He' Hs']].
  - left. by apply Qlt_trans with (sc y).
  - left. by rewrite <- He'.
  - left. by rewrite He.
  - right. split; [by rewrite He | by apply str_lt_trans with (item_of y)].
Qed.

Lemma outranks_false x y : beats y x = false <-> before x y.
Proof.
  unfold ranked_before. rewrite <- not_true_iff_false, outranks_true.
  split.
  - intros H. split.
    + apply Qnot_lt_le. intros Hlt. apply H. by left.
    + intros He. apply not_true_is_false. intros Hs. apply str_gt_lt in Hs.
      apply H. right. split; [by symmetry | done].
  - intros [Hle Htie] [Hlt | [He Hs]].
    + by apply Qlt_not_le in Hlt.
    + apply str_gt_lt in Hs. rewrite Htie in Hs; [done | by symmetry].
Qed.

Lemma lookup_swapped (l : list V) (i j r : nat) (a b : V) :
  i <> j -> i < length l -> j < length l ->
  <[j:=a]> (<[i:=b]> l) !! r =
    if decide (r = j) then Some a
    else if decide (r = i) then Some b else l !! r.
Proof.
  intros Hij Hi Hj. destruct (decide (r = j)) as [->|Hrj].
  - apply list_lookup_insert_eq. by rewrite length_insert.
  - rewrite list_lookup_insert_ne by done.
    destruct (decide (r = i)) as [->|Hri].
    + by apply list_lookup_insert_eq.
    + by rewrite list_lookup_insert_ne.
Qed.

(** The elements of the list under the loops: drawn from [l0], with a
    score that does not fail. *)
Local Abbreviation good l0 := (fun x => x ∈ l0 /\ score x = Ok (sc x)).

Lemma rank_body_step (l0 : list V) (n i j : nat) (l : list V) :
  i < n -> length l = n -> Forall (good l0) l ->
  upto i l -> settled_at i j l ->
  exists l', rank_body score item_of i l j = Ok l' /\ length l' = n /\
             Forall (good l0) l' /\ upto i l' /\ settled_at i (S j) l'.
Proof.
  intros Hi Hlen Hgood Hranked Hsettled. unfold rank_body.
  destruct (Nat.ltb_spec j i) as [Hji|Hij].
  2:{ exists l. repeat split; try done.
      intros p x y Hp Hpi. apply Hsettled; lia. }
  destruct (lookup_lt_is_Some_2 l i) as [a Ha]; [lia|].
  destruct (lookup_lt_is_Some_2 l j) as [b Hb]; [lia|].
  rewrite Ha, Hb.
  pose proof (proj1 (Forall_lookup _ _) Hgood _ _ Ha) as [Hal Hsa].
  pose proof (proj1 (Forall_lookup _ _) Hgood _ _ Hb) as [Hbl Hsb].
  rewrite Hsa, Hsb. simpl.
  assert ((if Qgt_bool (sc a) (sc b) then swap l i j
           else if Qeq_bool (sc a) (sc b) && str_gt (item_of a) (item_of b)
                then swap l i j else Ok l)
          = if beats a b then swap l i j else Ok l) as ->.
  { unfold outranks. by destruct (Qgt_bool (sc a) (sc b)). }
  destruct (beats a b) eqn:Hab.
  - unfold swap. rewrite Ha, Hb. eexists. split; [done|].
    split; [by rewrite !length_insert|].
    split; [by apply Forall_insert; [apply Forall_insert|]|].
    split.
    + intros p q x y Hpq Hqi.
      rewrite !lookup_swapped by lia.
      destruct (decide (p = j)) as [->|Hpj], (decide (q = j)) as [->|Hqj];
        try lia; repeat (destruct (decide _); try lia).
      * intros [= <-] Hy. apply not_true_is_false. intros Hya.
        pose proof (outranks_trans _ _ _ Hya Hab) as Hyb.
        rewrite (Hranked j q b y) in Hyb; done || lia.
      * intros Hx [= <-]. apply (Hsettled p x a); done || lia.
      * intros Hx Hy. apply (Hranked p q x y); done || lia.
    + intros p x y Hp Hpi.
      rewrite !lookup_swapped by lia.
      destruct (decide (p = j)) as [->|Hpj];
        repeat (destruct (decide _); try lia).
      * intros [= <-] [= <-]. by apply outranks_asym.
      * intros Hx [= <-]. apply (Hranked p j x b); done || lia.
  - exists l. repeat split; try done.
    intros p x y Hp Hpi Hx Hy.
    destruct (decide (p = j)) as [->|Hpj].
    + rewrite Ha in Hy. rewrite Hb in Hx. by simplify_eq.
    + apply (Hsettled p x y); done || lia.
Qed.

Lemma rank_inner_step (l0 : list V) (n i : nat) (l : list V) :
  i < n -> length l = n -> Forall (good l0) l -> upto i l ->
  exists l', rank_inner score item_of l i = Ok l' /\ length l' = n /\
             Forall (good l0) l' /\ upto (S i) l'.
Proof.
  intros Hi Hlen Hgood Hranked. unfold rank_inner. rewrite Hlen.
  destruct (for_each_seq_inv (rank_body score item_of i)
              (fun j l => length l = n /\ Forall (good l0) l /\
                          upto i l /\ settled_at i j l) 0 n l)
    as (l' & Hrun & Hlen' & Hgood' & Hranked' & Hsettled').
  - repeat split; try done. intros p x y Hp. lia.
  - intros j l1 _ (Hlen1 & Hgood1 & Hranked1 & Hsettled1).
    by apply rank_body_step.
  - exists l'. repeat split; try done.
    intros p q x y Hpq Hq Hx Hy. destruct (decide (q = i)) as [->|Hqi].
    + apply (Hsettled' p x y); done || lia.
    + apply (Hranked' p q x y); done || lia.
Qed.

Lemma rank_loops_ranked (l : list V) :
  Forall (fun x => score x = Ok (sc x)) l ->
  exists l', rank_loops score item_of l = Ok l' /\
             Forall (good l) l' /\ upto (length l') l'.
Proof.
  intros Hsc. unfold rank_loops.
  destruct (for_each_seq_inv (rank_inner score item_of)
              (fun i l' => length l' = length l /\ Forall (good l) l' /\
                           upto i l') 0 (length l) l)
    as (l' & Hrun & Hlen' & Hgood' & Hranked').
  - repeat split; try done.
    + apply Forall_forall. intros x Hx. split; [done|].
      by apply (proj1 (Forall_forall _ _) Hsc).
    + intros p q x y Hpq Hq. lia.
  - intros i l1 Hi (Hlen1 & Hgood1 & Hranked1).
    destruct (rank_inner_step l (length l) i l1) as (l2 & ? & ? & ? & ?);
      try done; try lia.
    by exists l2.
  - exists l'. rewrite Hlen'. by repeat split.
Qed.

Lemma ranked_upto_sorted (l : list V) :
  upto (length l) l -> StronglySorted before l.
Proof.
  induction l as [|a l IH]; intros H; [constructor|].
  apply StronglySorted_cons. split.
  - apply Forall_forall. intros y Hy.
    apply list_elem_of_lookup in Hy as [q Hq].
    apply outranks_false. apply (H 0 (S q) a y); try done; try lia.
    apply lookup_lt_Some in Hq. simpl. lia.
  - apply IH. intros p q x y Hpq Hq Hx Hy.
    apply (H (S p) (S q) x y); try done; simpl; lia.
Qed.

Lemma Forall_of_sublist (P : V -> Prop) (l1 l2 : list V) :
  sublist l1 l2 -> Forall P l2 -> Forall P l1.
Proof.
  intros Hsub Hall. apply Forall_forall. intros x Hx.
  apply (proj1 (Forall_forall _ _) Hall). by eapply elem_of_sublist.
Qed.

Lemma sorted_sublist (R : V -> V -> Prop) (l1 l2 : list V) :
  sublist l1 l2 -> StronglySorted R l2 -> StronglySorted R l1.
Proof.
  induction 1 as [|x l1 l2 Hsub IH|x l1 l2 Hsub IH]; intros Hs; [done| |].
  - apply StronglySorted_cons in Hs as [Hx Hs].
    apply StronglySorted_cons. split; [|by apply IH].
    by eapply Forall_of_sublist.
  - apply StronglySorted_cons in Hs as [_ Hs]. by apply IH.
Qed.

Lemma slice_to_sublist (l : list V) (k : Z) : sublist (slice_to l k) l.
Proof. unfold slice_to. destruct (0 <=? k)%Z; apply sublist_take. Qed.

(** The list [rank] returns is, as titles or as vertex objects, a list [vs]
    of elements of [l] with non-zero score that stands in rank order. *)
Lemma rank_ranked (l : list V) (limit : Z) :
  Forall (fun x => score x = Ok (sc x)) l ->
  exists vs,
    (rank score item_of l limit = Ok (map (fun x => Title (item_of x)) vs)
     \/ rank score item_of l limit = Ok (map VertexObj vs)) /\
    Forall (fun v => v ∈ l /\ Qnonzero (sc v) = true) vs /\
    StronglySorted before vs.
Proof.
  intros Hsc. destruct (rank_loops_ranked l Hsc) as (l1 & Hrun & Hgood & Hr).
  unfold rank. rewrite Hrun. simpl. unfold drop_zero.
  rewrite (filter_r_total _ (fun x => Qnonzero (sc x))).
  2:{ intros x Hx. apply (proj1 (Forall_forall _ _) Hgood) in Hx as [_ ->].
      done. }
  simpl. set (l2 := filter (fun x => Qnonzero (sc x) = true) l1).
  assert (Forall (fun v => v ∈ l /\ Qnonzero (sc v) = true) l2) as Hl2.
  { apply Forall_forall. intros x Hx. apply list_elem_of_filter in Hx as [Hnz Hx].
    apply (proj1 (Forall_forall _ _) Hgood) in Hx as [Hx _]. done. }
  assert (StronglySorted before l2) as Hs2.
  { apply (sorted_sublist _ _ l1); [apply sublist_filter|].
    by apply ranked_upto_sorted. }
  unfold cut. destruct (limit <=? Z.of_nat (length l2))%Z.
  - exists (slice_to l2 (limit + 1)). split; [by left|]. split.
    + eapply Forall_of_sublist; [|exact Hl2]. apply slice_to_sublist.
    + eapply sorted_sublist; [apply slice_to_sublist | done].
  - exists l2. split; [by right | done].
Qed.
End RankingFacts.

(** ** The clustering loops *)

Lemma map_r_total {A B : Type} (f : A -> result B) (P : B -> Prop)
    (l : list A) :
  (forall x, x ∈ l -> exists y, f x = Ok y /\ P y) ->
  exists ys, map_r f l = Ok ys /\ Forall P ys.
Proof.
  induction l as [|x l IH]; intros Hf; simpl.
  - exists []. by split.
  - destruct (Hf x) as (y & Hy & HPy); [apply list_elem_of_here|].
    destruct IH as (ys & Hys & HPys).
    { intros z Hz. apply Hf. by apply list_elem_of_further. }
    exists (y :: ys). rewrite Hy. simpl. rewrite Hys. simpl.
    split; [done|]. by apply Forall_cons.
Qed.

Lemma for_each_progress {A S : Type} (f : S -> A -> result S)
    (P0 P1 : S -> Prop) (Q : A -> Prop) (l : list A) (s : S) :
  P0 s ->
  (forall x s, x ∈ l -> P0 s ->
     exists s', f s x = Ok s' /\ P0 s' /\ (P1 s \/ Q x -> P1 s')) ->
  exists s', for_each f l s = Ok s' /\ P0 s' /\
             (P1 s \/ (exists x, x ∈ l /\ Q x) -> P1 s').
Proof.
  revert s. induction l as [|x l IH]; intros s Hs Hstep; simpl.
  - exists s. repeat split; [done|]. intros [H | (x & Hx & _)]; [done|].
    by apply elem_of_nil in Hx.
  - destruct (Hstep x s) as (s1 & Hf & Hs1 & Hp1); [apply list_elem_of_here|done|].
    rewrite Hf. simpl.
    destruct (IH s1) as (s' & Hrun & Hs' & Hp'); [done| |].
    { intros y s2 Hy. apply Hstep. by apply list_elem_of_further. }
    exists s'. repeat split; [done..|].
    intros [H | (y & Hy & HQ)].
    + apply Hp'. left. apply Hp1. by left.
    + apply elem_of_cons in Hy as [->|Hy].
      * apply Hp'. left. apply Hp1. by right.
      * apply Hp'. right. by exists y.
Qed.

Lemma map_r_length {A B : Type} (f : A -> result B) (l : list A)
    (ys : list B) :
  map_r f l = Ok ys -> length ys = length l.
Proof.
  revert ys. induction l as [|x l IH]; intros ys; simpl.
  - by intros [= <-].
  - destruct (f x) as [y|e]; simpl; [|done].
    destruct (map_r f l) as [r|e]; simpl; [|done].
    intros [= <-]. simpl. by rewrite (IH r).
Qed.

Lemma pairs_length (l1 l2 : list string) :
  length (x ← l1; y ← l2; [(x, y)]) = length l1 * length l2.
Proof.
  induction l1 as [|x l1 IH]; [done|].
  rewrite bind_cons, length_app, IH.
  assert (length (y ← l2; [(x, y)]) = length l2) as ->; [|simpl; lia].
  clear IH. induction l2 as [|y l2 IH]; [done|].
  rewrite bind_cons. simpl. by rewrite IH.
Qed.

Section ClusterFacts.
Import Weighted Part3.
Variable ar : arith.
Variable g : WeightedGraph.

Lemma size_nonempty (c : gset string) : c <> ∅ -> size c <> 0.
Proof. intros Hc Hs. apply Hc. by apply size_empty_inv, leibniz_equiv in Hs. Qed.

Lemma list_remove_elem (c : gset string) (clusters : clusters_t) :
  c ∈ clusters ->
  exists rest, list_remove c clusters = Ok rest /\
               length clusters = S (length rest) /\ sublist rest clusters.
Proof.
  induction clusters as [|c' l IH]; intros Hc; simpl.
  - by apply elem_of_nil in Hc.
  - destruct (bool_decide (c' = c)) eqn:Heq.
    + exists l. repeat split; [done..|]. by apply sublist_cons.
    + apply bool_decide_eq_false in Heq.
      apply elem_of_cons in Hc as [->|Hc]; [done|].
      destruct (IH Hc) as (rest & -> & Hlen & Hsub). simpl.
      exists (c' :: rest). split; [done|]. split; [simpl; lia|].
      by apply sublist_skip.
Qed.

Lemma merge_found (clusters : clusters_t) (st : scan_t ar) :
  cluster_inv g clusters -> found (length clusters) st ->
  exists rest, merge clusters st.2 = Ok rest /\
               length clusters = S (length rest) /\ cluster_inv g rest.
Proof.
  intros Hinv (i1 & i2 & Hst & Hi1 & Hi2 & Hne). unfold merge. rewrite Hst.
  destruct (lookup_lt_is_Some_2 clusters i1) as [c1 Hc1]; [done|].
  destruct (lookup_lt_is_Some_2 clusters i2) as [c2 Hc2]; [done|].
  rewrite Hc1, Hc2.
  pose proof (proj1 (Forall_lookup _ _) Hinv _ _ Hc1) as [Hne1 Hsub1].
  pose proof (proj1 (Forall_lookup _ _) Hinv _ _ Hc2) as [Hne2 Hsub2].
  destruct (list_remove_elem c1 (<[i2:=c2 ∪ c1]> clusters))
    as (rest & Hrest & Hlen & Hsub).
  { apply list_elem_of_lookup. exists i1. by rewrite list_lookup_insert_ne. }
  exists rest. split; [done|]. rewrite length_insert in Hlen. split; [done|].
  unfold cluster_inv. apply Forall_forall. intros c Hc.
  assert (c ∈ <[i2:=c2 ∪ c1]> clusters) as Hc' by by eapply elem_of_sublist.
  assert (cluster_inv g (<[i2:=c2 ∪ c1]> clusters)) as Hinv'.
  { apply Forall_insert; [done|]. split; set_solver. }
  by apply (proj1 (Forall_forall _ _) Hinv').
Qed.

Hypothesis Hunit : unit_weights g = true.

Lemma weight_unit (k : string) (v : _WeightedVertex) (z : string) (w : Q) :
  dict_get g k = Some v -> neighbours v !! z = Some w ->
  (0 <= w)%Q /\ (w <= 1)%Q.
Proof.
  intros Hk Hw. apply dict_get_Some_elem, list_elem_of_In in Hk.
  unfold unit_weights in Hunit.
  rewrite forallb_forall in Hunit. specialize (Hunit _ Hk). simpl in Hunit.
  rewrite forallb_forall in Hunit.
  assert (In w (weights v)) as Hin.
  { unfold weights. apply list_elem_of_In.
    apply (list_elem_of_fmap_2 snd _ (z, w)). by apply elem_of_map_to_list. }
  apply Hunit, andb_true_iff in Hin as [H0 H1].
  split; by apply Qle_bool_iff.
Qed.

Lemma get_weight_unit (x y : string) :
  x ∈ get_all_vertices g "" -> y ∈ get_all_vertices g "" ->
  exists w, get_weight g x y = Ok w /\ (0 <= w)%Q /\ (w <= 1)%Q.
Proof.
  intros Hx Hy. apply elem_of_all_vertices in Hx as [vx Hvx].
  apply elem_of_all_vertices in Hy as [vy Hvy].
  unfold get_weight, vertex_at. rewrite Hvx, Hvy. simpl.
  eexists. split; [done|].
  destruct (neighbours vx !! y) as [w|] eqn:Hw; simpl.
  - exact (weight_unit x vx y w Hvx Hw).
  - split; [apply Qle_refl | discriminate].
Qed.

(** The cross-cluster weight of two clusters of vertices is computed
    without an error and beats the initial [best]. *)
Lemma cross_cluster_weight_best (c1 c2 : gset string) :
  c1 <> ∅ -> c1 ⊆ get_all_vertices g "" ->
  c2 <> ∅ -> c2 ⊆ get_all_vertices g "" ->
  exists s, cross_cluster_weight ar g c1 c2 = Ok s /\
            num_gt ar s (num_of ar (-1)%Q) = true.
Proof.
  intros Hne1 Hsub1 Hne2 Hsub2. unfold cross_cluster_weight.
  destruct (map_r_total
              (fun xy : string * string => get_weight g xy.1 xy.2)
              (fun w => (0 <= w)%Q /\ (w <= 1)%Q)
              (x ← elements c1; y ← elements c2; [(x, y)]))
    as (ws & Hws & Hall).
  { intros [x y] Hxy. simpl.
    apply list_elem_of_bind in Hxy as (x' & Hxy & Hx').
    apply list_elem_of_bind in Hxy as (y' & Hxy & Hy').
    apply list_elem_of_singleton in Hxy as [= -> ->].
    apply elem_of_elements in Hx', Hy'.
    apply get_weight_unit; [by apply Hsub1 | by apply Hsub2]. }
  rewrite Hws. simpl.
  assert (length ws = size c1 * size c2) as Hlen.
  { by rewrite (map_r_length _ _ _ Hws), pairs_length. }
  apply size_nonempty in Hne1, Hne2.
  destruct (num_unit_mean ar ws) as (s & q & Hs & Hq & Hgt); [|done|].
  { intros ->. simpl in Hlen. lia. }
  rewrite Hlen in Hq. rewrite Hs. simpl.
  destruct (Nat.eqb_spec (size c1 * size c2) 0) as [Hz|Hnz]; [lia|].
  by exists q.
Qed.

Lemma consider_found (clusters : clusters_t) (i1 i2 : nat) (st : scan_t ar) :
  cluster_inv g clusters -> scanning (length clusters) st ->
  i1 < length clusters -> i2 < length clusters -> i1 <> i2 ->
  exists st', consider ar g clusters i1 i2 st = Ok st' /\
              found (length clusters) st'.
Proof.
  intros Hinv Hst Hi1 Hi2 Hne. unfold consider.
  destruct (lookup_lt_is_Some_2 clusters i1) as [c1 Hc1]; [done|].
  destruct (lookup_lt_is_Some_2 clusters i2) as [c2 Hc2]; [done|].
  rewrite Hc1, Hc2.
  pose proof (proj1 (Forall_lookup _ _) Hinv _ _ Hc1) as [Hne1 Hsub1].
  pose proof (proj1 (Forall_lookup _ _) Hinv _ _ Hc2) as [Hne2 Hsub2].
  destruct (cross_cluster_weight_best c1 c2) as (s & -> & Hs); try done.
  simpl. destruct (num_gt ar s st.1) eqn:Hgt.
  - eexists. split; [done|]. by exists i1, i2.
  - exists st. split; [done|]. destruct Hst as [Hf | ->]; [done|].
    exfalso. unfold scan_init in Hgt. simpl in Hgt. congruence.
Qed.

End ClusterFacts.

Lemma singletons_inv (g : Weighted.WeightedGraph) :
  cluster_inv g (Part3.singletons g).
Proof.
  unfold cluster_inv, Part3.singletons. apply Forall_fmap, Forall_forall.
  intros x Hx. apply elem_of_elements in Hx. simpl. split; set_solver.
Qed.

(** ** The worked examples of the design document

    The two predictions are run with the arithmetic that does not round. *)

Example example_similarity :
  Weighted.get_similarity_score example_wgraph "U1" "U2" "unweighted"
    = Ok (1 # 2)%Q.
Proof. vm_compute. reflexivity. Qed.

Example example_similar_user :
  Predictions.SimilarUserPredictor exact_arith "unweighted" example_wgraph
    "U2" "B2" = Ok 3%Q.
Proof. vm_compute. reflexivity. Qed.

Example example_book_average :
  Predictions.BookAverageScorePredictor exact_arith example_wgraph "U1" "B3"
    = Ok 4%Q.
Proof. vm_compute. reflexivity. Qed.

(** * The claims *)

(** C3, as stated: no sequence of construction calls leaves a vertex that
    holds itself as a neighbour. It fails for [add_edge(x, x)] on both
    classes. *)
Lemma self_loop_created :
  ~ (forall cs, loop_free (build cs)) /\ ~ (forall cs, wloop_free (wbuild cs)).
Proof.
  split.
  - intros H. specialize (H loop_calls).
    apply (H "x" (Part1.Build_Vertex "x" "book" {["x"]})).
    + vm_compute. apply list_elem_of_here.
    + simpl. set_solver.
  - intros H. specialize (H loop_wcalls).
    apply (H "x" (Weighted.Build_WeightedVertex "x" "book" {["x" := 1%Q]})).
    + vm_compute. apply list_elem_of_here.
    + simpl. rewrite dom_singleton. set_solver.
Qed.

(** C3, amended: after any sequence of [add_vertex] and [add_edge] calls
    whose edge calls name two different items, no vertex of a [Graph] or of
    a [WeightedGraph] holds itself as a neighbour. *)
Theorem no_self_loop_distinct_ends (cs : list call) (wcs : list wcall) :
  Forall distinct_ends cs -> Forall wdistinct_ends wcs ->
  loop_free (build cs) /\ wloop_free (wbuild wcs).
Proof.
  intros Hcs Hwcs. split.
  - apply loop_free_foldl; [done|]. intros k v Hin. by apply elem_of_nil in Hin.
  - apply wloop_free_foldl; [done|]. intros k v Hin.
    by apply elem_of_nil in Hin.
Qed.

Lemma no_self_loop_distinct_ends_witness :
  loop_free (build sample_calls) /\ wloop_free (wbuild sample_wcalls).
Proof.
  apply no_self_loop_distinct_ends.
  - repeat constructor; simpl; discriminate.
  - repeat constructor; simpl; discriminate.
Defined.

(** C10: when the user or the book is absent from the graph,
    [FiveStarPredictor.predict_review_score] returns 5 and raises nothing. *)
Theorem five_star_absent (g : Weighted.WeightedGraph) (user book : string) :
  dict_get g user = None \/ dict_get g book = None ->
  Weighted.adjacent g user book = false /\
  Predictions.FiveStarPredictor g user book = Ok 5%Q.
Proof.
  intros H. apply adjacent_absent in H. split; [done|].
  unfold Predictions.FiveStarPredictor. by rewrite H.
Qed.

Lemma five_star_absent_witness :
  Weighted.adjacent sample_wgraph "U9" "A" = false /\
  Predictions.FiveStarPredictor sample_wgraph "U9" "A" = Ok 5%Q.
Proof.
  apply five_star_absent. left. vm_compute. reflexivity.
Defined.

(** C7: when the edge between user and book exists with stored weight [w],
    each of the three predictors returns [w], whatever the arithmetic. *)
Theorem predictors_return_stored_weight (ar : arith)
    (g : Weighted.WeightedGraph)
    (user book : string) (u : Weighted._WeightedVertex) (w : Q)
    (score_type : string) :
  dict_get g user = Some u -> dict_mem g book = true ->
  Weighted.neighbours u !! book = Some w ->
  Predictions.FiveStarPredictor g user book = Ok w /\
  Predictions.BookAverageScorePredictor ar g user book = Ok w /\
  Predictions.SimilarUserPredictor ar score_type g user book = Ok w.
Proof.
  intros Hu Hb Hw.
  assert (Weighted.adjacent g user book = true) as Hadj.
  { apply adjacent_true. exists u. by rewrite Hw. }
  pose proof (get_weight_stored _ _ _ _ _ Hu Hb Hw) as Hgw.
  unfold Predictions.FiveStarPredictor, Predictions.BookAverageScorePredictor,
    Predictions.SimilarUserPredictor.
  by rewrite Hadj.
Qed.

Lemma predictors_return_stored_weight_witness :
  Predictions.FiveStarPredictor sample_wgraph "U1" "B" = Ok 3%Q /\
  Predictions.BookAverageScorePredictor exact_arith sample_wgraph "U1" "B"
    = Ok 3%Q /\
  Predictions.SimilarUserPredictor exact_arith "strict" sample_wgraph
    "U1" "B" = Ok 3%Q.
Proof.
  apply (predictors_return_stored_weight exact_arith sample_wgraph "U1" "B"
           (Weighted.Build_WeightedVertex "U1" "user"
              (<["C" := 4%Q]> (<["B" := 3%Q]> {["A" := 5%Q]})))).
  - vm_compute. reflexivity.
  - vm_compute. reflexivity.
  - vm_compute. reflexivity.
Defined.

(** C4, as stated: the book-average predictor fails with [ValueError] on a
    book without reviewers. On the sample network it fails with another
    error, whatever the arithmetic. *)
Lemma book_average_not_value_error :
  dict_mem sample_wgraph "U1" = true /\
  Weighted.adjacent sample_wgraph "U1" "D" = false /\
  Weighted.get_neighbours sample_wgraph "D" = Ok ∅ /\
  forall ar : arith,
    Predictions.BookAverageScorePredictor ar sample_wgraph "U1" "D"
      <> Raise ValueError.
Proof.
  split; [vm_compute; reflexivity|].
  split; [vm_compute; reflexivity|].
  split; [vm_compute; reflexivity|].
  intros ar. unfold Predictions.BookAverageScorePredictor.
  replace (Weighted.adjacent sample_wgraph "U1" "D") with false
    by (vm_compute; reflexivity).
  rewrite (average_weight_no_reviews ar sample_wgraph "D"
             (Weighted.Build_WeightedVertex "D" "book" ∅));
    [discriminate | vm_compute; reflexivity | reflexivity].
Qed.

(** C4, amended: when no edge connects user and book and the book is a
    vertex without neighbours, [BookAverageScorePredictor] fails with
    [ZeroDivisionError], whatever the arithmetic. *)
Theorem book_average_no_reviews (ar : arith) (g : Weighted.WeightedGraph)
    (user book : string) (b : Weighted._WeightedVertex) :
  dict_mem g user = true -> dict_get g book = Some b ->
  Weighted.neighbours b = ∅ ->
  Weighted.adjacent g user book = false ->
  Predictions.BookAverageScorePredictor ar g user book
    = Raise ZeroDivisionError.
Proof.
  intros _ Hb Hn Hadj. unfold Predictions.BookAverageScorePredictor.
  rewrite Hadj. by rewrite (average_weight_no_reviews ar _ _ _ Hb Hn).
Qed.

Lemma book_average_no_reviews_witness :
  Predictions.BookAverageScorePredictor exact_arith sample_wgraph "U1" "D"
    = Raise ZeroDivisionError.
Proof.
  apply (book_average_no_reviews exact_arith sample_wgraph "U1" "D"
           (Weighted.Build_WeightedVertex "D" "book" ∅)).
  - vm_compute. reflexivity.
  - vm_compute. reflexivity.
  - reflexivity.
  - vm_compute. reflexivity.
Defined.

(** C9: similarity is symmetric, for the unweighted graph and for the
    weighted graph with either score type. *)
Theorem similarity_symmetric (g : Part1.Graph) (wg : Weighted.WeightedGraph)
    (a b : string) (score_type : string) :
  Part1.get_similarity_score g a b = Part1.get_similarity_score g b a /\
  Weighted.get_similarity_score wg a b score_type
    = Weighted.get_similarity_score wg b a score_type.
Proof.
  split.
  - unfold Part1.get_similarity_score. rewrite orb_comm.
    destruct (_ || _); [done|].
    destruct (Part1.vertex_at g a) as [va|ea] eqn:Ha,
             (Part1.vertex_at g b) as [vb|eb] eqn:Hb; simpl; try done.
    + by rewrite similarity_score_comm.
    + unfold Part1.vertex_at in *.
      destruct (dict_get g a), (dict_get g b); congruence.
  - unfold Weighted.get_similarity_score. rewrite orb_comm.
    destruct (_ || _); [done|].
    destruct (Weighted.vertex_at wg a) as [va|ea] eqn:Ha,
             (Weighted.vertex_at wg b) as [vb|eb] eqn:Hb; simpl; try done.
    + rewrite similarity_score_unweighted_comm.
      by rewrite similarity_score_strict_comm.
    + unfold Weighted.vertex_at in *.
      destruct (dict_get wg a), (dict_get wg b); congruence.
Qed.

(** C6: for two vertices present in a weighted graph, the strict weighted
    similarity is 0 when either has degree 0, and otherwise the number of
    common neighbours whose edge weights to the two vertices are equal,
    divided by the size of the union of the two neighbour-key sets. *)
Theorem strict_similarity_meets_spec (cs : list wcall) (a b : string)
    (va vb : Weighted._WeightedVertex) (score_type : string) :
  dict_get (wbuild cs) a = Some va -> dict_get (wbuild cs) b = Some vb ->
  score_type <> "unweighted" ->
  Weighted.get_similarity_score (wbuild cs) a b score_type
    = Ok (strict_similarity_spec va vb) /\
  (Weighted.degree va = 0 \/ Weighted.degree vb = 0 ->
   Weighted.get_similarity_score (wbuild cs) a b score_type = Ok 0%Q).
Proof.
  intros Ha Hb Hst.
  assert (Weighted.get_similarity_score (wbuild cs) a b score_type
          = Ok (strict_similarity_spec va vb)) as Heq.
  { unfold Weighted.get_similarity_score.
    rewrite !bool_decide_eq_true_2
      by (apply elem_of_all_vertices; by eexists).
    simpl. unfold Weighted.vertex_at. rewrite Ha, Hb. simpl.
    destruct (String.eqb_spec score_type "unweighted"); [done|].
    by apply (similarity_score_strict_wf _ a b); [apply wf_wbuild | |]. }
  split; [done|]. intros Hdeg. rewrite Heq. unfold strict_similarity_spec.
  by rewrite bool_decide_eq_true_2.
Qed.

Lemma strict_similarity_meets_spec_witness :
  Weighted.get_similarity_score sample_wgraph "U1" "U2" "strict" = Ok (1 # 3)%Q.
Proof.
  pose proof (strict_similarity_meets_spec sample_wcalls "U1" "U2"
    (Weighted.Build_WeightedVertex "U1" "user"
       (<["C" := 4%Q]> (<["B" := 3%Q]> {["A" := 5%Q]})))
    (Weighted.Build_WeightedVertex "U2" "user" {["C" := 4%Q]})
    "strict") as H.
  destruct H as [H _].
  - vm_compute. reflexivity.
  - vm_compute. reflexivity.
  - discriminate.
  - unfold sample_wgraph. rewrite H. vm_compute. reflexivity.
Defined.

(** C5, as stated: equal scores stand in ascending order of the item key.
    On the sample network [B] and [A] score the same against [C], and [B]
    is listed first. *)
Lemma ties_not_ascending :
  exists out,
    Part1.recommend_books sample_graph "C" 3 = Ok out /\
    ~ ties_ascending (fun t => Part1.get_similarity_score sample_graph t "C")
        (entry_items Part1.item out).
Proof.
  exists [Title "C"; Title "B"; Title "A"]. split.
  - vm_compute. reflexivity.
  - intros H.
    assert (str_gt "B" "A" = false) as Hgt; [|discriminate Hgt].
    apply (H 1 2 "B" "A" (1 # 2)%Q (1 # 2)%Q).
    + lia.
    + reflexivity.
    + reflexivity.
    + vm_compute. reflexivity.
    + vm_compute. reflexivity.
    + reflexivity.
Qed.

(** C5, amended: for a query book present in the graph, the list returned
    by [recommend_books] (unweighted graph, and weighted graph with either
    score type) denotes book vertices of the graph with non-zero similarity
    to the query book only, ordered by similarity score descending, equal
    scores in descending order of the item key. *)
Theorem recommend_books_ranked (g : Part1.Graph) (cs : list wcall)
    (book : string) (limit : Z) (score_type : string)
    (b : Part1._Vertex) (wb : Weighted._WeightedVertex) :
  dict_get g book = Some b -> dict_get (wbuild cs) book = Some wb ->
  (exists vs,
     (Part1.recommend_books g book limit
        = Ok (map (fun x => Title (Part1.item x)) vs) \/
      Part1.recommend_books g book limit = Ok (map VertexObj vs)) /\
     Forall (fun v => v ∈ Part1.pos_books g /\
                      Qnonzero (Part1.similarity_score v b) = true) vs /\
     StronglySorted
       (ranked_before (fun v => Part1.similarity_score v b) Part1.item) vs) /\
  (exists vs,
     (Weighted.recommend_books (wbuild cs) book limit score_type
        = Ok (map (fun x => Title (Weighted.item x)) vs) \/
      Weighted.recommend_books (wbuild cs) book limit score_type
        = Ok (map VertexObj vs)) /\
     Forall (fun v => v ∈ Weighted.pos_books (wbuild cs) /\
                      Qnonzero (wscore score_type wb v) = true) vs /\
     StronglySorted (ranked_before (wscore score_type wb) Weighted.item) vs).
Proof.
  intros Hb Hwb. split.
  - apply rank_ranked. apply Forall_forall. intros x _.
    unfold Part1.score_to, Part1.vertex_at. by rewrite Hb.
  - apply rank_ranked. apply Forall_forall. intros x Hx.
    unfold Weighted.score_to, Weighted.vertex_at, wscore. rewrite Hwb. simpl.
    destruct (String.eqb score_type "unweighted"); [done|].
    apply (similarity_score_strict_wf _ (Weighted.item x) book);
      [apply wf_wbuild | | done].
    apply wf_value_get; [apply wf_wbuild|].
    unfold Weighted.pos_books in Hx.
    by apply list_elem_of_filter in Hx as [_ Hx].
Qed.

Lemma recommend_books_ranked_witness :
  exists vs,
    (Part1.recommend_books sample_graph "C" 3
       = Ok (map (fun x => Title (Part1.item x)) vs) \/
     Part1.recommend_books sample_graph "C" 3 = Ok (map VertexObj vs)) /\
    Forall (fun v => v ∈ Part1.pos_books sample_graph /\
                     Qnonzero (Part1.similarity_score v sample_C) = true) vs /\
    StronglySorted
      (ranked_before (fun v => Part1.similarity_score v sample_C) Part1.item)
      vs.
Proof.
  destruct (recommend_books_ranked sample_graph sample_wcalls "C" 3 "strict"
              sample_C sample_wC) as [H _].
  - vm_compute. reflexivity.
  - vm_compute. reflexivity.
  - exact H.
Defined.

(** C1 on the sample network: with limit 1 (limit 0 for the strict score)
    the returned list is one longer than the limit; with limit 5, above the
    number of non-zero candidates, the returned list holds vertex objects
    and no titles. *)
Theorem recommend_books_limit_slip :
  (Part1.recommend_books sample_graph "C" 1 = Ok [Title "C"; Title "B"] /\
   Weighted.recommend_books sample_wgraph "C" 1 "unweighted"
     = Ok [Title "C"; Title "B"] /\
   Weighted.recommend_books sample_wgraph "C" 0 "strict" = Ok [Title "C"]) /\
  (exists out wout,
     Part1.recommend_books sample_graph "C" 5 = Ok out /\
     Weighted.recommend_books sample_wgraph "C" 5 "unweighted" = Ok wout /\
     entry_items Part1.item out = ["C"; "B"; "A"] /\
     entry_items Weighted.item wout = ["C"; "B"; "A"] /\
     all_titles out = false /\ all_titles wout = false).
Proof.
  split.
  - repeat split; vm_compute; reflexivity.
  - eexists _, _. split; [vm_compute; reflexivity|].
    split; [vm_compute; reflexivity|].
    repeat split; vm_compute; reflexivity.
Qed.

(** C2 on the sample network: the query book [C] is a member of its own
    recommendations, with every variant. *)
Theorem recommend_books_includes_query :
  Part1.recommend_books sample_graph "C" 1 = Ok [Title "C"; Title "B"] /\
  Weighted.recommend_books sample_wgraph "C" 1 "unweighted"
    = Ok [Title "C"; Title "B"] /\
  Weighted.recommend_books sample_wgraph "C" 1 "strict" = Ok [Title "C"] /\
  "C" ∈ entry_items (V := Part1._Vertex) Part1.item [Title "C"; Title "B"].
Proof.
  repeat split; try (vm_compute; reflexivity).
  simpl. apply list_elem_of_here.
Qed.

(** * Further properties of the graph core *)

Section GraphCore.
Implicit Types (a b c d k z : string).

Lemma link_add_edge_Ok (g : Part1.Graph) a b g' :
  Part1.add_edge g a b = Ok g' ->
  dict_mem g a = true /\ dict_mem g b = true /\
  dict_keys g' = dict_keys g /\
  forall k, dict_get g' k = link_update a b k <$> dict_get g k.
Proof.
  unfold Part1.add_edge. destruct (dict_mem g a) eqn:Ha; [|done].
  destruct (dict_mem g b) eqn:Hb; [|done]. simpl. intros [= <-].
  repeat split.
  - by rewrite !dict_keys_alter.
  - intros k. rewrite !dict_get_alter. unfold link_update.
    destruct (String.eqb b k), (String.eqb a k), (dict_get g k); done.
Qed.

Lemma link_update_item a b k v :
  Part1.item (link_update a b k v) = Part1.item v.
Proof. unfold link_update. by destruct (String.eqb b k), (String.eqb a k). Qed.

Lemma link_update_kind a b k v :
  Part1.kind (link_update a b k v) = Part1.kind v.
Proof. unfold link_update. by destruct (String.eqb b k), (String.eqb a k). Qed.

Lemma edge_update_kind a b w k v :
  Weighted.kind (edge_update a b w k v) = Weighted.kind v.
Proof. unfold edge_update. by destruct (String.eqb b k), (String.eqb a k). Qed.

Lemma link_update_elem a b k v z :
  z ∈ Part1.neighbours (link_update a b k v) <->
  z ∈ Part1.neighbours v \/ (b = k /\ z = a) \/ (a = k /\ z = b).
Proof.
  unfold link_update.
  destruct (String.eqb_spec b k), (String.eqb_spec a k); simpl;
    rewrite ?elem_of_union, ?elem_of_singleton; naive_solver.
Qed.

Lemma gwf_init : gwf Part1.init.
Proof. split; simpl; [apply NoDup_nil_2 | done | done]. Qed.

Lemma gwf_add_vertex (g : Part1.Graph) i kd :
  gwf g -> gwf (Part1.add_vertex g i kd).
Proof.
  intros [Hk Hi Hm]. unfold Part1.add_vertex.
  destruct (dict_mem g i) eqn:Hmem; simpl; [by split|].
  apply dict_mem_false in Hmem.
  split.
  - unfold dict_add, dict_keys. rewrite map_app. simpl.
    apply NoDup_app. split; [exact Hk|]. split; [|apply NoDup_singleton].
    intros x Hx Hx'. apply list_elem_of_singleton in Hx' as ->.
    by apply dict_get_None_keys in Hmem.
  - intros k v. rewrite dict_get_add.
    destruct (dict_get g k) as [v0|] eqn:Hg.
    + intros [= <-]. by apply Hi.
    + destruct (String.eqb_spec i k) as [->|]; [|done]. by intros [= <-].
  - intros k v z. rewrite dict_get_add.
    destruct (dict_get g k) as [v0|] eqn:Hg.
    + intros [= <-] Hz. destruct (Hm _ _ _ Hg Hz) as (zv & Hzv & Hkz).
      exists zv. split; [|done]. by rewrite dict_get_add, Hzv.
    + destruct (String.eqb_spec i k) as [->|]; [|done].
      intros [= <-]. simpl. intros Hz. by apply not_elem_of_empty in Hz.
Qed.

Lemma gwf_add_edge (g : Part1.Graph) a b g' :
  gwf g -> Part1.add_edge g a b = Ok g' -> gwf g'.
Proof.
  intros [Hk Hi Hm] Hadd.
  apply link_add_edge_Ok in Hadd as (Ha & Hb & Hkeys & Hget).
  apply dict_mem_true in Ha as [va Hva]. apply dict_mem_true in Hb as [vb Hvb].
  split.
  - by rewrite Hkeys.
  - intros k v. rewrite Hget. destruct (dict_get g k) as [v0|] eqn:Hg; [|done].
    simpl. intros [= <-]. rewrite link_update_item. by apply Hi.
  - intros k v z. rewrite Hget.
    destruct (dict_get g k) as [v0|] eqn:Hg; [|done].
    simpl. intros [= <-]. rewrite link_update_elem.
    intros [Hz | [[-> ->] | [-> ->]]].
    + destruct (Hm _ _ _ Hg Hz) as (zv & Hzv & Hkz).
      exists (link_update a b z zv). rewrite Hget, Hzv. split; [done|].
      apply link_update_elem. by left.
    + exists (link_update a k a va). rewrite Hget, Hva. split; [done|].
      apply link_update_elem. right. by right.
    + exists (link_update k b b vb). rewrite Hget, Hvb. split; [done|].
      apply link_update_elem. right. by left.
Qed.

Lemma gwf_build cs : gwf (build cs).
Proof.
  unfold build. generalize gwf_init. generalize Part1.init.
  induction cs as [|c cs IH]; intros g Hg; simpl; [done|].
  apply IH. destruct c as [i kd | a b]; simpl.
  - by apply gwf_add_vertex.
  - destruct (Part1.add_edge g a b) as [g'|e] eqn:Hadd; [|done].
    by eapply gwf_add_edge.
Qed.

Lemma part1_adjacent_true (g : Part1.Graph) a b :
  Part1.adjacent g a b = true <->
  exists u, dict_get g a = Some u /\ dict_mem g b = true
            /\ b ∈ Part1.neighbours u.
Proof.
  unfold Part1.adjacent, dict_mem.
  destruct (dict_get g a) as [u|] eqn:Hu; simpl.
  - destruct (dict_get g b) as [vb|] eqn:Hb; simpl.
    + rewrite existsb_eqb_elements. naive_solver.
    + naive_solver.
  - naive_solver.
Qed.
End GraphCore.

Section GraphCoreProperties.
Implicit Types (a b c d k z : string).

Lemma filter_items_alter {V : Type} (it kd : V -> string) (f : V -> V)
    (K : string) k (g : list (string * V)) :
  (forall v, it (f v) = it v) -> (forall v, kd (f v) = kd v) ->
  map it (filter (fun v => String.eqb (kd v) K = true)
                 (dict_values (dict_alter f k g)))
  = map it (filter (fun v => String.eqb (kd v) K = true) (dict_values g)).
Proof.
  intros Hit Hkd. unfold dict_values.
  induction g as [|[k0 v0] g IH]; simpl; [done|].
  destruct (String.eqb k0 k); simpl.
  - rewrite !filter_cons. simpl. rewrite Hkd.
    destruct (decide _); simpl; by rewrite ?Hit.
  - rewrite !filter_cons. simpl. destruct (decide _); simpl; by rewrite IH.
Qed.

Lemma part1_elem_of_all_vertices (g : Part1.Graph) a :
  a ∈ Part1.get_all_vertices g "" <-> is_Some (dict_get g a).
Proof.
  unfold Part1.get_all_vertices. simpl. rewrite elem_of_list_to_set.
  destruct (dict_get g a) as [v|] eqn:Hget.
  - split; [by eexists|]. intros _.
    apply dict_get_Some_elem in Hget.
    apply (list_elem_of_fmap_2 fst) in Hget. exact Hget.
  - split; [|by intros [? ?]]. intros Hin.
    by apply dict_get_None_keys in Hget.
Qed.

(** X1: [add_vertex] makes the item present, keeps a vertex that is already
    stored under the item as it is (kind and neighbours), touches no other
    entry, and a second call for the same item changes nothing. *)
Theorem add_vertex_idempotent (g : Part1.Graph) (wg : Weighted.WeightedGraph)
    (i kd kd' j : string) :
  (dict_mem (Part1.add_vertex g i kd) i = true /\
   Part1.add_vertex (Part1.add_vertex g i kd) i kd' = Part1.add_vertex g i kd /\
   dict_get (Part1.add_vertex g i kd) j =
     match dict_get g j with
     | Some v => Some v
     | None => if String.eqb i j then Some (Part1.Build_Vertex i kd ∅)
               else None
     end) /\
  (dict_mem (Weighted.add_vertex wg i kd) i = true /\
   Weighted.add_vertex (Weighted.add_vertex wg i kd) i kd'
     = Weighted.add_vertex wg i kd /\
   dict_get (Weighted.add_vertex wg i kd) j =
     match dict_get wg j with
     | Some v => Some v
     | None => if String.eqb i j
               then Some (Weighted.Build_WeightedVertex i kd ∅)
               else None
     end).
Proof.
  split.
  - assert (dict_mem (Part1.add_vertex g i kd) i = true) as Hmem.
    { unfold Part1.add_vertex. destruct (dict_mem g i) eqn:Hi; simpl; [done|].
      apply dict_mem_true. rewrite dict_get_add.
      apply dict_mem_false in Hi. rewrite Hi, String.eqb_refl. by eexists. }
    split; [done|]. split.
    + unfold Part1.add_vertex at 1. by rewrite Hmem.
    + unfold Part1.add_vertex. destruct (dict_mem g i) eqn:Hi; simpl.
      * destruct (dict_get g j) as [v|] eqn:Hj; [done|].
        destruct (String.eqb_spec i j) as [->|]; [|done].
        apply dict_mem_true in Hi as [v Hv]. congruence.
      * apply dict_get_add.
  - assert (dict_mem (Weighted.add_vertex wg i kd) i = true) as Hmem.
    { unfold Weighted.add_vertex.
      destruct (dict_mem wg i) eqn:Hi; simpl; [done|].
      apply dict_mem_true. rewrite dict_get_add.
      apply dict_mem_false in Hi. rewrite Hi, String.eqb_refl. by eexists. }
    split; [done|]. split.
    + unfold Weighted.add_vertex at 1. by rewrite Hmem.
    + unfold Weighted.add_vertex. destruct (dict_mem wg i) eqn:Hi; simpl.
      * destruct (dict_get wg j) as [v|] eqn:Hj; [done|].
        destruct (String.eqb_spec i j) as [->|]; [|done].
        apply dict_mem_true in Hi as [v Hv]. congruence.
      * apply dict_get_add.
Qed.

(** X2: [add_edge] raises [ValueError] exactly when one of the two items is
    not a vertex; otherwise it succeeds, the two items are adjacent in both
    directions afterwards, and on a weighted graph [get_weight] returns the
    given weight in both directions, whatever was stored before. *)
Theorem add_edge_outcome (g : Part1.Graph) (wg : Weighted.WeightedGraph)
    (a b : string) (w : Q) :
  match Part1.add_edge g a b with
  | Ok g' =>
      dict_mem g a = true /\ dict_mem g b = true /\
      Part1.adjacent g' a b = true /\ Part1.adjacent g' b a = true
  | Raise e => e = ValueError /\ (dict_mem g a = false \/ dict_mem g b = false)
  end /\
  match Weighted.add_edge wg a b w with
  | Ok g' =>
      dict_mem wg a = true /\ dict_mem wg b = true /\
      Weighted.adjacent g' a b = true /\ Weighted.adjacent g' b a = true /\
      Weighted.get_weight g' a b = Ok w /\ Weighted.get_weight g' b a = Ok w
  | Raise e => e = ValueError /\ (dict_mem wg a = false \/ dict_mem wg b = false)
  end.
Proof.
  split.
  - destruct (Part1.add_edge g a b) as [g'|e] eqn:Hadd.
    + apply link_add_edge_Ok in Hadd as (Ha & Hb & Hkeys & Hget).
      split; [done|]. split; [done|].
      apply dict_mem_true in Ha as [va Hva].
      apply dict_mem_true in Hb as [vb Hvb].
      split; apply part1_adjacent_true.
      * exists (link_update a b a va). rewrite Hget, Hva. split; [done|].
        split; [apply dict_mem_true; rewrite Hget, Hvb; by eexists|].
        apply link_update_elem. right. by right.
      * exists (link_update a b b vb). rewrite Hget, Hvb. split; [done|].
        split; [apply dict_mem_true; rewrite Hget, Hva; by eexists|].
        apply link_update_elem. right. by left.
    + unfold Part1.add_edge in Hadd.
      destruct (dict_mem g a), (dict_mem g b); simpl in Hadd;
        try discriminate; injection Hadd as <-; auto.
  - destruct (Weighted.add_edge wg a b w) as [g'|e] eqn:Hadd.
    + apply add_edge_Ok in Hadd as (Ha & Hb & Hkeys & Hget).
      split; [done|]. split; [done|].
      apply dict_mem_true in Ha as [va Hva].
      apply dict_mem_true in Hb as [vb Hvb].
      assert (Weighted.neighbours (edge_update a b w a va) !! b = Some w) as Hab.
      { rewrite edge_update_lookup. rewrite decide_True; [done | by right]. }
      assert (Weighted.neighbours (edge_update a b w b vb) !! a = Some w) as Hba.
      { rewrite edge_update_lookup. rewrite decide_True; [done | by left]. }
      split; [|split; [|split]].
      * apply adjacent_true. exists (edge_update a b w a va).
        rewrite Hget, Hva, Hab. split; [done|].
        split; [apply dict_mem_true; rewrite Hget, Hvb|]; by eexists.
      * apply adjacent_true. exists (edge_update a b w b vb).
        rewrite Hget, Hvb, Hba. split; [done|].
        split; [apply dict_mem_true; rewrite Hget, Hva|]; by eexists.
      * unfold Weighted.get_weight, Weighted.vertex_at.
        rewrite !Hget, Hva, Hvb. simpl. by rewrite Hab.
      * unfold Weighted.get_weight, Weighted.vertex_at.
        rewrite !Hget, Hva, Hvb. simpl. by rewrite Hba.
    + unfold Weighted.add_edge in Hadd.
      destruct (dict_mem wg a), (dict_mem wg b); simpl in Hadd;
        try discriminate; injection Hadd as <-; auto.
Qed.
End GraphCoreProperties.

Section GraphCoreFrames.
Implicit Types (a b c d k z : string).

(** X3: a successful [WeightedGraph.add_edge(a, b, w)] leaves the vertex
    sets of every kind as they were, and leaves the weight and the adjacency
    of every pair other than [(a, b)] and [(b, a)] as they were. *)
Theorem add_edge_frame (g g' : Weighted.WeightedGraph) (a b : string) (w : Q)
    (kind_ c d : string) :
  Weighted.add_edge g a b w = Ok g' ->
  Weighted.get_all_vertices g' kind_ = Weighted.get_all_vertices g kind_ /\
  (~ (c = a /\ d = b) -> ~ (c = b /\ d = a) ->
   Weighted.get_weight g' c d = Weighted.get_weight g c d /\
   Weighted.adjacent g' c d = Weighted.adjacent g c d).
Proof.
  intros Hadd. split.
  - unfold Weighted.add_edge in Hadd.
    destruct (dict_mem g a && dict_mem g b); [|done]. injection Hadd as <-.
    unfold Weighted.get_all_vertices. destruct (negb (String.eqb kind_ "")).
    + by rewrite !(filter_items_alter Weighted.item Weighted.kind).
    + by rewrite !dict_keys_alter.
  - intros Hab Hba.
    apply add_edge_Ok in Hadd as (Ha & Hb & Hkeys & Hget).
    assert (forall vc, Weighted.neighbours (edge_update a b w c vc) !! d
                       = Weighted.neighbours vc !! d) as Hsame.
    { intros vc. rewrite edge_update_lookup. rewrite decide_False; [done|].
      intros [[-> ->] | [-> ->]]; [by apply Hba | by apply Hab]. }
    split.
    + unfold Weighted.get_weight, Weighted.vertex_at. rewrite !Hget.
      destruct (dict_get g c) as [vc|]; simpl; [|done].
      destruct (dict_get g d) as [vd|]; simpl; [|done].
      by rewrite Hsame.
    + apply eq_true_iff_eq. rewrite !adjacent_true. split.
      * intros (u & Hu & Hd & Hn). rewrite Hget in Hu.
        destruct (dict_get g c) as [vc|]; [|done]. injection Hu as <-.
        rewrite Hsame in Hn. exists vc. split; [done|]. split; [|done].
        apply dict_mem_true. apply dict_mem_true in Hd. rewrite Hget in Hd.
        destruct (dict_get g d); [by eexists | by destruct Hd].
      * intros (u & Hu & Hd & Hn). exists (edge_update a b w c u).
        rewrite Hget, Hu, Hsame. split; [done|]. split; [|done].
        apply dict_mem_true. apply dict_mem_true in Hd as [vd Hvd].
        rewrite Hget, Hvd. by eexists.
Qed.

Lemma add_edge_frame_witness :
  Weighted.get_weight sample_wgraph_rated "U1" "A"
  = Weighted.get_weight sample_wgraph "U1" "A".
Proof.
  destruct (add_edge_frame sample_wgraph sample_wgraph_rated "U2" "A" 2%Q
              "book" "U1" "A") as [_ H].
  - vm_compute. reflexivity.
  - destruct H as [H _].
    + intros [? ?]. discriminate.
    + intros [? ?]. discriminate.
    + exact H.
Defined.

(** X4: in a graph built by [add_vertex] and [add_edge] calls, adjacency is
    symmetric, for [Graph] and for [WeightedGraph]. *)
Theorem adjacent_symmetric (cs : list call) (wcs : list wcall) (a b : string) :
  Part1.adjacent (build cs) a b = Part1.adjacent (build cs) b a /\
  Weighted.adjacent (wbuild wcs) a b = Weighted.adjacent (wbuild wcs) b a.
Proof.
  split.
  - pose proof (gwf_build cs) as Hwf.
    assert (forall x y, Part1.adjacent (build cs) x y = true ->
                        Part1.adjacent (build cs) y x = true) as Hhalf.
    { intros x y. rewrite !part1_adjacent_true. intros (u & Hu & _ & Hn).
      destruct (gwf_mirror _ Hwf _ _ _ Hu Hn) as (zv & Hzv & Hx).
      exists zv. split; [done|]. split; [|done].
      apply dict_mem_true. by eexists. }
    apply eq_true_iff_eq. split; apply Hhalf.
  - pose proof (wf_wbuild wcs) as Hwf.
    assert (forall x y, Weighted.adjacent (wbuild wcs) x y = true ->
                        Weighted.adjacent (wbuild wcs) y x = true) as Hhalf.
    { intros x y. rewrite !adjacent_true. intros (u & Hu & _ & [w Hn]).
      destruct (wf_mirror _ Hwf _ _ _ _ Hu Hn) as (zv & Hzv & Hx).
      exists zv. split; [done|]. split; [|by eexists].
      apply dict_mem_true. by eexists. }
    apply eq_true_iff_eq. split; apply Hhalf.
Qed.

(** X5: in a weighted graph built by [add_vertex] and [add_edge] calls,
    [get_weight] is symmetric: both directions return the same weight (0
    without an edge), or both raise [KeyError] when an item is missing. *)
Theorem get_weight_symmetric (wcs : list wcall) (a b : string) :
  Weighted.get_weight (wbuild wcs) a b = Weighted.get_weight (wbuild wcs) b a.
Proof.
  pose proof (wf_wbuild wcs) as Hwf.
  unfold Weighted.get_weight, Weighted.vertex_at.
  destruct (dict_get (wbuild wcs) a) as [va|] eqn:Ha,
           (dict_get (wbuild wcs) b) as [vb|] eqn:Hb; simpl; try done.
  f_equal.
  destruct (Weighted.neighbours va !! b) as [w|] eqn:Hab.
  - destruct (wf_mirror _ Hwf _ _ _ _ Ha Hab) as (zv & Hzv & Hba).
    rewrite Hb in Hzv. injection Hzv as <-. by rewrite Hba.
  - destruct (Weighted.neighbours vb !! a) as [w|] eqn:Hba; [|done].
    destruct (wf_mirror _ Hwf _ _ _ _ Hb Hba) as (zv & Hzv & Hab').
    rewrite Ha in Hzv. injection Hzv as <-. congruence.
Qed.

(** X6: [get_neighbours] raises [ValueError] exactly for an item that is not
    a vertex; in a built graph the set it returns holds vertices of the
    graph only, and exactly the items adjacent to the given one. *)
Theorem get_neighbours_closed (cs : list call) (wcs : list wcall)
    (a b : string) :
  match Part1.get_neighbours (build cs) a with
  | Ok s =>
      is_Some (dict_get (build cs) a) /\
      s ⊆ Part1.get_all_vertices (build cs) "" /\
      (b ∈ s <-> Part1.adjacent (build cs) a b = true)
  | Raise e => e = ValueError /\ dict_get (build cs) a = None
  end /\
  match Weighted.get_neighbours (wbuild wcs) a with
  | Ok s =>
      is_Some (dict_get (wbuild wcs) a) /\
      s ⊆ Weighted.get_all_vertices (wbuild wcs) "" /\
      (b ∈ s <-> Weighted.adjacent (wbuild wcs) a b = true)
  | Raise e => e = ValueError /\ dict_get (wbuild wcs) a = None
  end.
Proof.
  split.
  - pose proof (gwf_build cs) as Hwf.
    unfold Part1.get_neighbours, dict_mem.
    destruct (dict_get (build cs) a) as [va|] eqn:Ha; [|done].
    split; [by eexists|].
    assert (forall z, z ∈ Part1.neighbours va ->
                      is_Some (dict_get (build cs) z)) as Hin.
    { intros z Hz. destruct (gwf_mirror _ Hwf _ _ _ Ha Hz) as (zv & Hzv & _).
      by eexists. }
    split.
    + intros z Hz. apply part1_elem_of_all_vertices. by apply Hin.
    + rewrite part1_adjacent_true. split.
      * intros Hb. exists va. split; [done|]. split; [|done].
        apply dict_mem_true. by apply Hin.
      * intros (u & Hu & _ & Hn). by simplify_eq.
  - pose proof (wf_wbuild wcs) as Hwf.
    unfold Weighted.get_neighbours, dict_mem.
    destruct (dict_get (wbuild wcs) a) as [va|] eqn:Ha; [|done].
    split; [by eexists|].
    assert (forall z, z ∈ dom (Weighted.neighbours va) ->
                      is_Some (dict_get (wbuild wcs) z)) as Hin.
    { intros z Hz. apply elem_of_dom in Hz as [w Hz].
      destruct (wf_mirror _ Hwf _ _ _ _ Ha Hz) as (zv & Hzv & _).
      by eexists. }
    split.
    + intros z Hz. apply elem_of_all_vertices. by apply Hin.
    + rewrite adjacent_true, elem_of_dom. split.
      * intros Hb. exists va. split; [done|]. split; [|done].
        apply dict_mem_true. apply Hin. by apply elem_of_dom.
      * intros (u & Hu & _ & Hn). by simplify_eq.
Qed.
End GraphCoreFrames.

(** * Further properties of the similarity scores *)

Section ScoreProperties.
Implicit Types (a b z : string) (m n : nat).

(** [len(x) / len(y)] *)
Local Abbreviation ratio m n :=
  (inject_Z (Z.of_nat m) / inject_Z (Z.of_nat n))%Q.

Lemma inject_nat_pos n : 0 < n -> (0 < inject_Z (Z.of_nat n))%Q.
Proof. intros Hn. change 0%Q with (inject_Z 0). rewrite <- Zlt_Qlt. lia. Qed.

Lemma ratio_bounds m n :
  m <= n -> 0 < n -> (0 <= ratio m n)%Q /\ (ratio m n <= 1)%Q.
Proof.
  intros Hmn Hn. split.
  - apply Qle_shift_div_l; [by apply inject_nat_pos|].
    rewrite Qmult_0_l. change 0%Q with (inject_Z 0). rewrite <- Zle_Qle. lia.
  - apply Qle_shift_div_r; [by apply inject_nat_pos|].
    rewrite Qmult_1_l. rewrite <- Zle_Qle. lia.
Qed.

Lemma ratio_zero m n : 0 < n -> (ratio m n == 0)%Q <-> m = 0.
Proof.
  intros Hn. split.
  - intros Hz. destruct m as [|m]; [done|]. exfalso.
    assert (0 < ratio (S m) n)%Q as Hpos.
    { apply Qlt_shift_div_l; [by apply inject_nat_pos|].
      rewrite Qmult_0_l. by apply inject_nat_pos; lia. }
    apply Qlt_not_eq in Hpos. apply Hpos. by symmetry.
  - intros ->. unfold Qdiv. apply Qmult_0_l.
Qed.


Lemma zero_bounds : (0 <= 0)%Q /\ (0 <= 1)%Q.
Proof. split; unfold Qle; simpl; lia. Qed.

Lemma Qnonzero_true (s : Q) : Qnonzero s = true <-> ~ (s == 0)%Q.
Proof.
  unfold Qnonzero. rewrite negb_true_iff, <- not_true_iff_false.
  by rewrite Qeq_bool_iff.
Qed.

Lemma filter_r_length {A : Type} (p : A -> result bool) (l r : list A) :
  filter_r p l = Ok r -> length r <= length l.
Proof.
  revert r. induction l as [|x l IH]; intros r; simpl.
  - by intros [= <-].
  - destruct (p x) as [c|e]; simpl; [|done].
    destruct (filter_r p l) as [r'|e]; simpl; [|done].
    intros [= <-]. specialize (IH r' eq_refl). destruct c; simpl; lia.
Qed.

Lemma part1_score_bounds (va vb : Part1._Vertex) :
  (0 <= Part1.similarity_score va vb)%Q /\
  (Part1.similarity_score va vb <= 1)%Q.
Proof.
  unfold Part1.similarity_score, Part1.degree.
  destruct (Nat.eqb_spec (size (Part1.neighbours va)) 0) as [|Ha]; simpl;
    [apply zero_bounds|].
  destruct (Nat.eqb_spec (size (Part1.neighbours vb)) 0) as [|Hb]; simpl;
    [apply zero_bounds|].
  apply ratio_bounds.
  - apply subseteq_size. set_solver.
  - assert (size (Part1.neighbours va)
            <= size (Part1.neighbours va ∪ Part1.neighbours vb)).
    { apply subseteq_size. set_solver. }
    lia.
Qed.

Lemma union_size_pos (va vb : Weighted._WeightedVertex) :
  Weighted.degree va <> 0 ->
  0 < size (dom (Weighted.neighbours va) ∪ dom (Weighted.neighbours vb)
            : gset string).
Proof.
  unfold Weighted.degree. intros Ha.
  assert (size (dom (Weighted.neighbours va) : gset string)
          <= size (dom (Weighted.neighbours va)
                   ∪ dom (Weighted.neighbours vb) : gset string)).
  { apply subseteq_size. set_solver. }
  rewrite size_dom in H. lia.
Qed.

Lemma unweighted_score_bounds (va vb : Weighted._WeightedVertex) :
  (0 <= Weighted.similarity_score_unweighted va vb)%Q /\
  (Weighted.similarity_score_unweighted va vb <= 1)%Q.
Proof.
  unfold Weighted.similarity_score_unweighted.
  destruct (Nat.eqb_spec (Weighted.degree va) 0) as [|Ha]; simpl;
    [apply zero_bounds|].
  destruct (Nat.eqb_spec (Weighted.degree vb) 0) as [|Hb]; simpl;
    [apply zero_bounds|].
  apply ratio_bounds.
  - apply subseteq_size. set_solver.
  - by apply union_size_pos.
Qed.

Lemma strict_score_bounds (g : Weighted.WeightedGraph)
    (va vb : Weighted._WeightedVertex) (s : Q) :
  Weighted.similarity_score_strict g va vb = Ok s ->
  (0 <= s)%Q /\ (s <= 1)%Q.
Proof.
  unfold Weighted.similarity_score_strict.
  destruct (Nat.eqb_spec (Weighted.degree va) 0) as [|Ha]; simpl;
    [intros [= <-]; apply zero_bounds|].
  destruct (Nat.eqb_spec (Weighted.degree vb) 0) as [|Hb]; simpl;
    [intros [= <-]; apply zero_bounds|].
  destruct (filter_r _ _) as [same|e] eqn:Hsame; simpl; [|done].
  intros [= <-]. apply filter_r_length in Hsame.
  apply ratio_bounds.
  - etransitivity; [exact Hsame|].
    change (size (dom (Weighted.neighbours va) ∩ dom (Weighted.neighbours vb)
                  : gset string)
            <= size (dom (Weighted.neighbours va)
                     ∪ dom (Weighted.neighbours vb) : gset string)).
    apply subseteq_size. set_solver.
  - by apply union_size_pos.
Qed.

(** X7: every similarity score that [get_similarity_score] returns, on a
    [Graph] or on a [WeightedGraph] with either score type, lies between 0
    and 1. *)
Theorem similarity_bounds (g : Part1.Graph) (wg : Weighted.WeightedGraph)
    (a b score_type : string) :
  match Part1.get_similarity_score g a b with
  | Ok s => (0 <= s)%Q /\ (s <= 1)%Q
  | Raise e => e = ValueError \/ e = KeyError
  end /\
  match Weighted.get_similarity_score wg a b score_type with
  | Ok s => (0 <= s)%Q /\ (s <= 1)%Q
  | Raise e => e = ValueError \/ e = KeyError
  end.
Proof.
  split.
  - unfold Part1.get_similarity_score. destruct (_ || _); [by left|].
    unfold Part1.vertex_at.
    destruct (dict_get g a) as [va|]; simpl; [|by right].
    destruct (dict_get g b) as [vb|]; simpl; [|by right].
    apply part1_score_bounds.
  - unfold Weighted.get_similarity_score. destruct (_ || _); [by left|].
    unfold Weighted.vertex_at.
    destruct (dict_get wg a) as [va|]; simpl; [|by right].
    destruct (dict_get wg b) as [vb|]; simpl; [|by right].
    destruct (String.eqb score_type "unweighted").
    + apply unweighted_score_bounds.
    + destruct (Weighted.similarity_score_strict wg va vb) as [s|e] eqn:Hs.
      * by eapply strict_score_bounds.
      * right. unfold Weighted.similarity_score_strict in Hs.
        destruct (_ || _); [done|]. simpl in Hs.
        destruct (filter_r _ _) as [same|e'] eqn:Hsame; simpl in Hs; [done|].
        injection Hs as <-. revert Hsame.
        generalize (elements (dom (Weighted.neighbours va)
                              ∩ dom (Weighted.neighbours vb) : gset string)).
        intros l. revert e'. induction l as [|z l IH]; intros e'; simpl; [done|].
        unfold Weighted.vertex_at, Weighted.weight_to.
        destruct (dict_get wg z) as [zv|]; simpl; [|by intros [= <-]].
        destruct (Weighted.neighbours zv !! Weighted.item va); simpl;
          [|by intros [= <-]].
        destruct (Weighted.neighbours zv !! Weighted.item vb); simpl;
          [|by intros [= <-]].
        destruct (filter_r _ l) as [r|e''] eqn:Hr; simpl; [done|].
        intros [= <-]. by eapply IH.
Qed.
End ScoreProperties.

Section ScoreMeaning.
Implicit Types (a b z : string).

Lemma inter_size_nonzero (X Y : gset string) :
  size (X ∩ Y) <> 0 <-> exists z, z ∈ X /\ z ∈ Y.
Proof.
  split.
  - intros Hs. destruct (size_pos_elem_of (X ∩ Y)) as [z Hz]; [lia|].
    exists z. by apply elem_of_intersection in Hz.
  - intros (z & HX & HY) Hs. apply size_empty_inv in Hs.
    assert (z ∈ X ∩ Y) as Hz by by apply elem_of_intersection.
    rewrite Hs in Hz. by apply not_elem_of_empty in Hz.
Qed.

Lemma size_zero_no_elem (X : gset string) z : size X = 0 -> z ∉ X.
Proof.
  intros Hs Hz. apply size_empty_inv in Hs. rewrite Hs in Hz.
  by apply not_elem_of_empty in Hz.
Qed.

Lemma part1_score_nonzero (va vb : Part1._Vertex) :
  Qnonzero (Part1.similarity_score va vb) = true <->
  exists z, z ∈ Part1.neighbours va /\ z ∈ Part1.neighbours vb.
Proof.
  rewrite Qnonzero_true. unfold Part1.similarity_score, Part1.degree.
  destruct (Nat.eqb_spec (size (Part1.neighbours va)) 0) as [Ha|Ha]; simpl.
  { split; [intros H; by destruct H|].
    intros (z & Hz & _). by apply size_zero_no_elem with (z := z) in Ha. }
  destruct (Nat.eqb_spec (size (Part1.neighbours vb)) 0) as [Hb|Hb]; simpl.
  { split; [intros H; by destruct H|].
    intros (z & _ & Hz). by apply size_zero_no_elem with (z := z) in Hb. }
  rewrite ratio_zero; [apply inter_size_nonzero|].
  assert (size (Part1.neighbours va)
          <= size (Part1.neighbours va ∪ Part1.neighbours vb)).
  { apply subseteq_size. set_solver. }
  lia.
Qed.

Lemma unweighted_score_nonzero (va vb : Weighted._WeightedVertex) :
  Qnonzero (Weighted.similarity_score_unweighted va vb) = true <->
  exists z, z ∈ dom (Weighted.neighbours va)
            /\ z ∈ dom (Weighted.neighbours vb).
Proof.
  rewrite Qnonzero_true. unfold Weighted.similarity_score_unweighted.
  unfold Weighted.degree at 1 2. rewrite <- !(size_dom (D := gset string)).
  destruct (Nat.eqb_spec (size (dom (Weighted.neighbours va))) 0)
    as [Ha|Ha]; simpl.
  { split; [intros H; by destruct H|].
    intros (z & Hz & _). by apply size_zero_no_elem with (z := z) in Ha. }
  destruct (Nat.eqb_spec (size (dom (Weighted.neighbours vb))) 0)
    as [Hb|Hb]; simpl.
  { split; [intros H; by destruct H|].
    intros (z & _ & Hz). by apply size_zero_no_elem with (z := z) in Hb. }
  rewrite ratio_zero; [apply inter_size_nonzero|].
  apply union_size_pos. unfold Weighted.degree.
  by rewrite <- (size_dom (D := gset string)).
Qed.

Lemma elem_of_agreeing (va vb : Weighted._WeightedVertex) z :
  z ∈ agreeing va vb <->
  exists x y, Weighted.neighbours va !! z = Some x /\
              Weighted.neighbours vb !! z = Some y /\ (x == y)%Q.
Proof.
  unfold agreeing. rewrite elem_of_filter, elem_of_intersection.
  rewrite !elem_of_dom, Qeq_bool_iff. unfold weight_of. split.
  - intros (Heq & [x Hx] & [y Hy]). rewrite Hx, Hy in Heq.
    by exists x, y.
  - intros (x & y & Hx & Hy & Heq). rewrite Hx, Hy. simpl.
    split; [done|]. split; by eexists.
Qed.

Lemma strict_spec_nonzero (va vb : Weighted._WeightedVertex) :
  Qnonzero (strict_similarity_spec va vb) = true <->
  exists z, z ∈ agreeing va vb.
Proof.
  rewrite Qnonzero_true. unfold strict_similarity_spec.
  assert (forall z, z ∈ agreeing va vb ->
            Weighted.degree va <> 0 /\ Weighted.degree vb <> 0) as Hdeg.
  { intros z Hz. apply elem_of_agreeing in Hz as (x & y & Hx & Hy & _).
    unfold Weighted.degree. split; intros Hs; apply map_size_empty_inv in Hs;
      rewrite Hs in *; by rewrite lookup_empty in *. }
  case_bool_decide as Hd.
  - split; [intros H; by destruct H|].
    intros (z & Hz). destruct (Hdeg z Hz). by destruct Hd.
  - rewrite ratio_zero.
    + split.
      * intros Hs. destruct (size_pos_elem_of (agreeing va vb)) as [z Hz];
          [lia | by exists z].
      * intros (z & Hz) Hs. by apply size_zero_no_elem with (z := z) in Hs.
    + apply union_size_pos. intros Hs. apply Hd. by left.
Qed.

(** X8: for two vertices of the graph the similarity score is non-zero
    exactly when they share a neighbour; with the strict score, exactly when
    they share a neighbour to which both have the same edge weight. *)
Theorem nonzero_iff_shared (g : Part1.Graph) (wcs : list wcall)
    (a b : string) (va vb : Part1._Vertex)
    (wa wb : Weighted._WeightedVertex) :
  dict_get g a = Some va -> dict_get g b = Some vb ->
  dict_get (wbuild wcs) a = Some wa -> dict_get (wbuild wcs) b = Some wb ->
  (exists s, Part1.get_similarity_score g a b = Ok s /\
     (Qnonzero s = true <->
      exists z, z ∈ Part1.neighbours va /\ z ∈ Part1.neighbours vb)) /\
  (exists s,
     Weighted.get_similarity_score (wbuild wcs) a b "unweighted" = Ok s /\
     (Qnonzero s = true <->
      exists z, z ∈ dom (Weighted.neighbours wa)
                /\ z ∈ dom (Weighted.neighbours wb))) /\
  (exists s,
     Weighted.get_similarity_score (wbuild wcs) a b "strict" = Ok s /\
     (Qnonzero s = true <->
      exists z x y, Weighted.neighbours wa !! z = Some x /\
                    Weighted.neighbours wb !! z = Some y /\ (x == y)%Q)).
Proof.
  intros Ha Hb Hwa Hwb. split; [|split].
  - eexists. split.
    + unfold Part1.get_similarity_score.
      rewrite !bool_decide_eq_true_2
        by (apply part1_elem_of_all_vertices; by eexists).
      simpl. unfold Part1.vertex_at. by rewrite Ha, Hb.
    + apply part1_score_nonzero.
  - eexists. split.
    + unfold Weighted.get_similarity_score.
      rewrite !bool_decide_eq_true_2
        by (apply elem_of_all_vertices; by eexists).
      simpl. unfold Weighted.vertex_at. by rewrite Hwa, Hwb.
    + apply unweighted_score_nonzero.
  - eexists. split.
    + unfold Weighted.get_similarity_score.
      rewrite !bool_decide_eq_true_2
        by (apply elem_of_all_vertices; by eexists).
      simpl. unfold Weighted.vertex_at. rewrite Hwa, Hwb. simpl.
      by apply (similarity_score_strict_wf _ a b); [apply wf_wbuild | |].
    + rewrite strict_spec_nonzero. by setoid_rewrite elem_of_agreeing.
Qed.

Lemma nonzero_iff_shared_witness :
  exists s, Part1.get_similarity_score sample_graph "A" "C" = Ok s /\
     (Qnonzero s = true <->
      exists z, z ∈ ({["U1"]} : gset string) /\ z ∈ ({["U1"; "U2"]} : gset string)).
Proof.
  destruct (nonzero_iff_shared sample_graph sample_wcalls "A" "C"
              (Part1.Build_Vertex "A" "book" {["U1"]}) sample_C
              (Weighted.Build_WeightedVertex "A" "book" {["U1" := 5%Q]})
              sample_wC) as [H _].
  - vm_compute. reflexivity.
  - vm_compute. reflexivity.
  - vm_compute. reflexivity.
  - vm_compute. reflexivity.
  - exact H.
Defined.
End ScoreMeaning.

Section SelfSimilarity.
Implicit Types (a : string).



End SelfSimilarity.

(** * Further properties of the predictors *)

Section PredictorProperties.
Import Weighted Predictions.
Implicit Types (g : WeightedGraph) (user book : string).

(** X10: [FiveStarPredictor.predict_review_score] never raises, whatever the
    graph and the two items: it returns the stored weight when the two are
    adjacent and 5 otherwise. *)
Theorem five_star_total g user book :
  match FiveStarPredictor g user book with
  | Ok q =>
      if adjacent g user book
      then exists u, dict_get g user = Some u /\ neighbours u !! book = Some q
      else q = 5%Q
  | Raise _ => False
  end.
Proof.
  unfold FiveStarPredictor.
  destruct (adjacent g user book) eqn:Hadj; [|done].
  apply adjacent_true in Hadj as (u & Hu & Hb & [w Hw]).
  rewrite (get_weight_stored _ _ _ _ _ Hu Hb Hw). by exists u.
Qed.

(** X11: when the book is not a vertex of the graph,
    [BookAverageScorePredictor] and [SimilarUserPredictor] raise
    [ValueError], whatever the user, the score type and the arithmetic. *)
Theorem predictors_absent_book (ar : arith) g user book score_type :
  dict_get g book = None ->
  BookAverageScorePredictor ar g user book = Raise ValueError /\
  SimilarUserPredictor ar score_type g user book = Raise ValueError.
Proof.
  intros Hb.
  assert (adjacent g user book = false) as Hadj
    by (apply adjacent_absent; by right).
  unfold BookAverageScorePredictor, SimilarUserPredictor. rewrite Hadj.
  rewrite (average_weight_absent ar g book Hb).
  unfold get_neighbours, dict_mem. by rewrite Hb.
Qed.

Lemma predictors_absent_book_witness :
  BookAverageScorePredictor exact_arith sample_wgraph "U1" "Z"
    = Raise ValueError /\
  SimilarUserPredictor exact_arith "strict" sample_wgraph "U1" "Z"
    = Raise ValueError.
Proof.
  apply predictors_absent_book. vm_compute. reflexivity.
Defined.

(** X12: when no edge connects user and book and the book is a vertex
    without neighbours, [SimilarUserPredictor] fails with
    [ZeroDivisionError], with either score type and whether or not the user
    is a vertex: both sums are 0, the prediction is 0, and the average of
    the book is asked for. *)
Theorem similar_user_no_reviews (ar : arith) g user book score_type
    (b : _WeightedVertex) :
  dict_get g book = Some b -> neighbours b = ∅ ->
  adjacent g user book = false ->
  SimilarUserPredictor ar score_type g user book = Raise ZeroDivisionError.
Proof.
  intros Hb Hn Hadj. unfold SimilarUserPredictor. rewrite Hadj.
  unfold get_neighbours, dict_mem. rewrite Hb.
  cbn [mbind result_bind]. rewrite Hn, dom_empty_L, elements_empty.
  cbn [map_r mbind result_bind]. rewrite num_sum_nil.
  cbn [mbind result_bind]. rewrite num_gt_zero.
  cbn [mbind result_bind Z.eqb].
  by rewrite (average_weight_no_reviews ar _ _ _ Hb Hn).
Qed.

Lemma similar_user_no_reviews_witness :
  SimilarUserPredictor exact_arith "unweighted" sample_wgraph "U1" "D"
    = Raise ZeroDivisionError.
Proof.
  apply (similar_user_no_reviews exact_arith sample_wgraph "U1" "D"
           "unweighted" (Build_WeightedVertex "D" "book" ∅)).
  - vm_compute. reflexivity.
  - reflexivity.
  - vm_compute. reflexivity.
Defined.

(** X13: in a built graph, when the user is not a vertex and the book is a
    vertex with a reviewer, [SimilarUserPredictor] raises [ValueError],
    with either score type: the similarity of the first reviewer to the
    user is asked for. *)
Theorem similar_user_absent_user (ar : arith) (cs : list wcall)
    user book score_type (bv : _WeightedVertex) :
  dict_get (wbuild cs) user = None -> dict_get (wbuild cs) book = Some bv ->
  neighbours bv <> ∅ ->
  SimilarUserPredictor ar score_type (wbuild cs) user book = Raise ValueError.
Proof.
  intros Hu Hb Hne. pose proof (wf_wbuild cs) as Hwf.
  assert (adjacent (wbuild cs) user book = false) as Hadj
    by (apply adjacent_absent; by left).
  unfold SimilarUserPredictor. rewrite Hadj.
  unfold get_neighbours, dict_mem. rewrite Hb. cbn [mbind result_bind].
  destruct (elements (dom (neighbours bv))) as [|x l] eqn:Hel.
  { apply elements_empty_inv, leibniz_equiv, dom_empty_inv_L in Hel. done. }
  assert (x ∈ dom (neighbours bv)) as Hx.
  { apply elem_of_elements. rewrite Hel. apply list_elem_of_here. }
  apply elem_of_dom in Hx as [w Hw].
  destruct (wf_mirror _ Hwf _ _ _ _ Hb Hw) as (xv & Hxv & Hxb).
  assert (get_weight (wbuild cs) x book = Ok w) as Hgw.
  { unfold get_weight, vertex_at. rewrite Hxv, Hb. simpl. by rewrite Hxb. }
  assert (get_similarity_score (wbuild cs) x user score_type
          = Raise ValueError) as Hsim.
  { unfold get_similarity_score.
    rewrite (bool_decide_eq_false_2 (user ∈ get_all_vertices (wbuild cs) ""));
      [by rewrite orb_true_r|].
    rewrite elem_of_all_vertices, Hu. by intros [? ?]. }
  cbn [map_r]. rewrite Hgw, Hsim. done.
Qed.

Lemma similar_user_absent_user_witness :
  SimilarUserPredictor exact_arith "strict" sample_wgraph "U9" "C"
    = Raise ValueError.
Proof.
  apply (similar_user_absent_user exact_arith sample_wcalls "U9" "C"
           "strict" sample_wC).
  - vm_compute. reflexivity.
  - vm_compute. reflexivity.
  - intros H. apply (f_equal (fun m => m !! "U1")) in H.
    vm_compute in H. discriminate H.
Defined.

End PredictorProperties.

(** * Further properties of the clustering *)

Section PartitionFacts.
Import Weighted Part3.
Implicit Types (c : gset string) (cl rest : clusters_t).

Lemma pairwise_disjoint_perm cl cl' :
  cl ≡ₚ cl' -> pairwise_disjoint cl -> pairwise_disjoint cl'.
Proof.
  induction 1 as [|c l l' Hp IH|c c' l|l l' l'' _ IH1 _ IH2]; simpl.
  - done.
  - intros [Hc Hl]. split; [by rewrite <- Hp | by apply IH].
  - intros [Hc [Hc' Hl]]. apply Forall_cons in Hc as [Hcc' Hc].
    repeat split; try done. apply Forall_cons. split; [by symmetry | done].
  - intros H. by apply IH2, IH1.
Qed.

Lemma is_partition_perm (V : gset string) cl cl' :
  cl ≡ₚ cl' -> is_partition V cl -> is_partition V cl'.
Proof.
  intros Hp (Hne & Hdis & Hcov). split; [by rewrite <- Hp|].
  split; [by eapply pairwise_disjoint_perm|].
  intros x. rewrite Hcov. by setoid_rewrite Hp.
Qed.

Lemma is_partition_merge (V : gset string) c1 c2 cl :
  is_partition V (c2 :: c1 :: cl) -> is_partition V ((c2 ∪ c1) :: cl).
Proof.
  intros (Hne & Hdis & Hcov).
  apply Forall_cons in Hne as [Hne2 Hne]. apply Forall_cons in Hne as [Hne1 Hne].
  simpl in Hdis. destruct Hdis as (H2 & H1 & Hdis).
  apply Forall_cons in H2 as [H21 H2].
  split; [|split].
  - apply Forall_cons. split; [set_solver | done].
  - simpl. split; [|done]. apply Forall_forall. intros c Hc.
    pose proof (proj1 (Forall_forall _ _) H1 c Hc).
    pose proof (proj1 (Forall_forall _ _) H2 c Hc). set_solver.
  - intros x. rewrite Hcov. split.
    + intros (c & Hc & Hx). apply elem_of_cons in Hc as [->|Hc].
      { exists (c2 ∪ c1). split; [apply list_elem_of_here | set_solver]. }
      apply elem_of_cons in Hc as [->|Hc].
      { exists (c2 ∪ c1). split; [apply list_elem_of_here | set_solver]. }
      exists c. split; [by apply list_elem_of_further | done].
    + intros (c & Hc & Hx). apply elem_of_cons in Hc as [->|Hc].
      * apply elem_of_union in Hx as [Hx|Hx].
        { exists c2. split; [apply list_elem_of_here | done]. }
        { exists c1. split; [|done].
          apply list_elem_of_further, list_elem_of_here. }
      * exists c. split; [|done]. by do 2 apply list_elem_of_further.
Qed.

Lemma list_remove_perm c cl rest :
  list_remove c cl = Ok rest -> cl ≡ₚ c :: rest.
Proof.
  revert rest. induction cl as [|c' l IH]; intros rest; simpl; [done|].
  case_bool_decide as Heq.
  - intros [= <-]. by rewrite Heq.
  - destruct (list_remove c l) as [r|e]; simpl; [|done].
    intros [= <-]. rewrite (IH r eq_refl). apply Permutation_swap.
Qed.

Lemma merge_partition {ar : arith} (V : gset string) cl rest
    (st : scan_t ar) :
  found (length cl) st -> is_partition V cl ->
  merge cl st.2 = Ok rest -> is_partition V rest.
Proof.
  intros (i1 & i2 & Hst & Hi1 & Hi2 & Hne) Hpart. unfold merge. rewrite Hst.
  destruct (lookup_lt_is_Some_2 cl i1) as [c1 Hc1]; [done|].
  destruct (lookup_lt_is_Some_2 cl i2) as [c2 Hc2]; [done|].
  rewrite Hc1, Hc2. intros Hrm. apply list_remove_perm in Hrm.
  assert (<[i2:=c2 ∪ c1]> cl ≡ₚ (c2 ∪ c1) :: delete i2 cl) as Hins.
  { rewrite insert_take_drop by done. rewrite delete_take_drop.
    by rewrite <- Permutation_middle. }
  assert (c1 ∈ delete i2 cl) as Hin.
  { apply list_elem_of_lookup. destruct (decide (i1 < i2)).
    - exists i1. by rewrite list_lookup_delete_lt.
    - exists (i1 - 1). rewrite list_lookup_delete_ge by lia.
      by replace (S (i1 - 1)) with i1 by lia. }
  apply elem_of_Permutation in Hin as [others Hothers].
  assert (rest ≡ₚ (c2 ∪ c1) :: others) as Hrest.
  { apply (Permutation_cons_inv (a := c1)).
    rewrite <- Hrm, Hins, Hothers. apply Permutation_swap. }
  apply (is_partition_perm V ((c2 ∪ c1) :: others)); [by symmetry|].
  apply is_partition_merge.
  apply (is_partition_perm V cl); [|done].
  rewrite (delete_Permutation cl i2 c2 Hc2). by rewrite Hothers.
Qed.

Lemma pairwise_disjoint_lookup cl (i j : nat) c c' :
  pairwise_disjoint cl -> i <> j ->
  cl !! i = Some c -> cl !! j = Some c' -> c ## c'.
Proof.
  revert i j. induction cl as [|c0 cl IH]; intros i j Hd Hij Hi Hj; [done|].
  simpl in Hd. destruct Hd as [Hc Hd].
  destruct i as [|i], j as [|j]; simpl in Hi, Hj.
  - done.
  - injection Hi as <-. exact (proj1 (Forall_lookup _ _) Hc _ _ Hj).
  - injection Hj as <-. symmetry. exact (proj1 (Forall_lookup _ _) Hc _ _ Hi).
  - apply (IH i j); [done | lia | done | done].
Qed.

Lemma list_remove_first c cl (i : nat) :
  cl !! i = Some c -> (forall j, j < i -> cl !! j <> Some c) ->
  list_remove c cl = Ok (delete i cl).
Proof.
  revert i. induction cl as [|c' l IH]; intros i Hi Hfirst; [done|].
  simpl. case_bool_decide as Heq.
  - destruct i as [|i]; [done|]. exfalso. apply (Hfirst 0); [lia|].
    simpl. by rewrite Heq.
  - destruct i as [|i]; simpl in Hi.
    { by injection Hi as ->. }
    rewrite (IH i Hi); [done|].
    intros j Hj. apply (Hfirst (S j)). lia.
Qed.

(** In a partition the cluster that leaves the list is the one at the
    position that the scan recorded. *)
Lemma merge_merged {ar : arith} (V : gset string) cl rest (st : scan_t ar) :
  found (length cl) st -> is_partition V cl ->
  merge cl st.2 = Ok rest -> merged cl rest.
Proof.
  intros (i1 & i2 & Hst & Hi1 & Hi2 & Hne) (Hnemp & Hdis & _).
  unfold merge. rewrite Hst.
  destruct (lookup_lt_is_Some_2 cl i1) as [c1 Hc1]; [done|].
  destruct (lookup_lt_is_Some_2 cl i2) as [c2 Hc2]; [done|].
  rewrite Hc1, Hc2. intros Hrm.
  exists i1, i2, c1, c2. split; [done|]. split; [done|]. split; [done|].
  pose proof (proj1 (Forall_lookup _ _) Hnemp _ _ Hc1) as Hne1.
  pose proof (proj1 (Forall_lookup _ _) Hnemp _ _ Hc2) as Hne2.
  pose proof (pairwise_disjoint_lookup cl i1 i2 c1 c2 Hdis Hne Hc1 Hc2)
    as H12.
  rewrite (list_remove_first c1 _ i1) in Hrm.
  - by injection Hrm as <-.
  - by rewrite list_lookup_insert_ne.
  - intros j Hj Hjc. destruct (decide (j = i2)) as [->|Hj2].
    + rewrite list_lookup_insert_eq in Hjc by done.
      injection Hjc as Heq. apply Hne2. set_solver.
    + rewrite list_lookup_insert_ne in Hjc by done.
      assert (j <> i1) as Hji by lia.
      pose proof (pairwise_disjoint_lookup cl j i1 c1 c1 Hdis Hji Hjc Hc1).
      apply Hne1. set_solver.
Qed.

Lemma singletons_partition (V : gset string) :
  is_partition V (map (fun book => {[book]}) (elements V)).
Proof.
  split; [|split].
  - apply Forall_fmap, Forall_forall. intros x _. simpl. set_solver.
  - pose proof (NoDup_elements V) as Hnd.
    induction Hnd as [|x l Hx Hnd IH]; simpl; [done|].
    split; [|done]. apply Forall_fmap, Forall_forall. intros y Hy. simpl.
    assert (x <> y) by (intros ->; done). set_solver.
  - intros x. split.
    + intros Hx. exists {[x]}. split; [|set_solver].
      apply (list_elem_of_fmap_2 (fun book => ({[book]} : gset string))).
      by apply elem_of_elements.
    + intros (c & Hc & Hx). apply list_elem_of_fmap in Hc as (y & -> & Hy).
      apply elem_of_singleton in Hx as ->. by apply elem_of_elements.
Qed.
End PartitionFacts.

Section ClusteringProperties.
Import Weighted Part3.
Implicit Types (c : gset string) (cl rest : clusters_t).

Lemma pairs_with_nil (l : list string) :
  (x ← l; y ← []; [(x, y)]) = @nil (string * string).
Proof. induction l as [|x l IH]; [done|]. by rewrite bind_cons, IH. Qed.

(** X14: the cross-cluster weight with an empty cluster on either side is a
    [ZeroDivisionError], whatever the other cluster holds; the
    cross-cluster weight of two singleton clusters is [sum([w]) / 1] for
    the weight [w] that [get_weight] gives for the two books, or the error
    that [get_weight] raises. *)
Theorem cross_cluster_weight_edges (ar : arith) (g : WeightedGraph)
    (a b : string) c :
  cross_cluster_weight ar g ∅ c = Raise ZeroDivisionError /\
  cross_cluster_weight ar g c ∅ = Raise ZeroDivisionError /\
  match get_weight g a b with
  | Ok w =>
      cross_cluster_weight ar g {[a]} {[b]}
      = (s ← num_sum ar [num_of ar w]; num_div ar s (num_of ar 1%Q))
  | Raise e => cross_cluster_weight ar g {[a]} {[b]} = Raise e
  end.
Proof.
  split; [|split].
  - unfold cross_cluster_weight. rewrite elements_empty, size_empty.
    simpl. by rewrite num_sum_nil.
  - unfold cross_cluster_weight. rewrite elements_empty, size_empty.
    rewrite pairs_with_nil. simpl. rewrite num_sum_nil. simpl.
    by rewrite Nat.mul_0_r.
  - unfold cross_cluster_weight. rewrite !elements_singleton, !size_singleton.
    simpl. by destruct (get_weight g a b) as [w|e].
Qed.

Lemma iterate_S (step : nat -> clusters_t -> result clusters_t)
    (t k : nat) cl :
  iterate step t (S k) cl = (c ← step t cl; iterate step (S t) k c).
Proof. reflexivity. Qed.

(** The last of [k + 1] iterations is the step numbered [t + k]. *)
Lemma iterate_snoc (step : nat -> clusters_t -> result clusters_t)
    (k t : nat) cl :
  iterate step t (S k) cl = (c ← iterate step t k cl; step (t + k) c).
Proof.
  revert t cl. induction k as [|k IH]; intros t cl.
  - rewrite Nat.add_0_r. simpl. by destruct (step t cl).
  - rewrite (iterate_S step t (S k) cl), (iterate_S step t k cl).
    destruct (step t cl) as [c|e]; [|done].
    cbn [mbind result_bind]. rewrite IH.
    by replace (S t + k) with (t + S k) by lia.
Qed.

Section Scans.
Variable ar : arith.
Variable g : WeightedGraph.
Hypothesis Hunit : unit_weights g = true.

Lemma greedy_scan_found cl :
  cluster_inv g cl -> 2 <= length cl ->
  exists st,
    for_each (fun st i1 =>
       for_each (fun st i2 => consider ar g cl i1 i2 st)
                (seq (i1 + 1) (length cl - (i1 + 1))) st)
      (seq 0 (length cl)) (scan_init ar) = Ok st /\
    found (length cl) st.
Proof.
  intros Hinv Hlen.
  destruct (for_each_progress
    (fun st i1 =>
       for_each (fun st i2 => consider ar g cl i1 i2 st)
                (seq (i1 + 1) (length cl - (i1 + 1))) st)
    (scanning (length cl)) (found (length cl))
    (fun i1 => i1 + 1 < length cl)
    (seq 0 (length cl)) (scan_init ar))
    as (st & Hrun & _ & Hfound).
  - by right.
  - intros i1 st Hi1 Hst. apply elem_of_seq in Hi1.
    destruct (for_each_progress
      (fun st i2 => consider ar g cl i1 i2 st)
      (scanning (length cl)) (found (length cl))
      (fun _ => True)
      (seq (i1 + 1) (length cl - (i1 + 1))) st)
      as (st' & Hrun & Hst' & Hfound'); [done| |].
    + intros i2 st2 Hi2 Hst2. apply elem_of_seq in Hi2.
      destruct (consider_found ar g Hunit cl i1 i2 st2) as (st3 & ? & ?);
        try done; try lia.
      exists st3. split; [done|]. split; [by left | done].
    + exists st'. repeat split; [done..|]. intros [H | H].
      * apply Hfound'. by left.
      * apply Hfound'. right. exists (i1 + 1). split; [|done].
        apply elem_of_seq. lia.
  - exists st. split; [done|]. apply Hfound. right.
    exists 0. split; [|lia]. apply elem_of_seq. lia.
Qed.

Lemma random_scan_found (i1 : nat) cl :
  cluster_inv g cl -> 2 <= length cl -> i1 < length cl ->
  exists st,
    for_each (fun st i2 =>
       if negb (i1 =? i2) then consider ar g cl i1 i2 st else Ok st)
      (seq 0 (length cl)) (scan_init ar) = Ok st /\
    found (length cl) st.
Proof.
  intros Hinv Hlen Hi1.
  destruct (for_each_progress
    (fun st i2 =>
       if negb (i1 =? i2) then consider ar g cl i1 i2 st else Ok st)
    (scanning (length cl)) (found (length cl))
    (fun i2 => i2 <> i1)
    (seq 0 (length cl)) (scan_init ar))
    as (st & Hrun & _ & Hfound).
  - by right.
  - intros i2 st Hi2 Hst. apply elem_of_seq in Hi2.
    destruct (Nat.eqb_spec i1 i2) as [Heq|Hne]; simpl.
    + exists st. repeat split; [done|]. intros [H | H]; [done | congruence].
    + destruct (consider_found ar g Hunit cl i1 i2 st) as (st' & ? & ?);
        try done; try lia.
      exists st'. split; [done|]. split; [by left | done].
  - exists st. split; [done|]. apply Hfound. right.
    destruct (decide (i1 = 0)) as [->|Hi10].
    + exists 1. split; [|lia]. apply elem_of_seq. lia.
    + exists 0. split; [|lia]. apply elem_of_seq. lia.
Qed.

(** What one iteration keeps: clusters of vertices that partition them. *)
Local Abbreviation keeps cl :=
  (cluster_inv g cl /\ is_partition (get_all_vertices g "") cl).

(** What one iteration does to a list of at least two clusters. *)
Local Abbreviation merges step :=
  (forall (t : nat) cl, keeps cl -> 2 <= length cl ->
     exists rest, step t cl = Ok rest /\ length cl = S (length rest) /\
                  keeps rest /\ merged cl rest).

Lemma greedy_step_partition : merges (fun _ : nat => greedy_step ar g).
Proof.
  intros _ cl [Hinv Hpart] Hlen. unfold greedy_step.
  destruct (greedy_scan_found cl Hinv Hlen) as (st & -> & Hfound). simpl.
  destruct (merge_found ar g cl st Hinv Hfound) as (rest & Hm & Hl & Hinv').
  exists rest. split; [done|]. split; [done|]. split.
  - split; [done|]. by eapply merge_partition.
  - by eapply merge_merged.
Qed.

Lemma random_step_partition (draws : nat -> nat) :
  merges (fun t => random_step ar g (draws t)).
Proof.
  intros t cl [Hinv Hpart] Hlen. unfold random_step.
  destruct (Nat.eqb_spec (length cl) 0) as [Hz|Hnz]; [lia|].
  assert (draws t mod length cl < length cl) as Hi1
    by (apply Nat.mod_upper_bound; lia).
  destruct (random_scan_found _ cl Hinv Hlen Hi1) as (st & -> & Hfound). simpl.
  destruct (merge_found ar g cl st Hinv Hfound) as (rest & Hm & Hl & Hinv').
  exists rest. split; [done|]. split; [done|]. split.
  - split; [done|]. by eapply merge_partition.
  - by eapply merge_merged.
Qed.

Lemma iterate_partition (step : nat -> clusters_t -> result clusters_t)
    (k t : nat) cl :
  merges step ->
  keeps cl -> k < length cl \/ k = 0 ->
  exists cl', iterate step t k cl = Ok cl' /\
              length cl' = length cl - k /\ keeps cl'.
Proof.
  intros Hstep. revert t cl.
  induction k as [|k IH]; intros t cl Hkeep Hk; simpl.
  - exists cl. split; [done|]. split; [lia | done].
  - destruct (Hstep t cl) as (c1 & -> & Hlen & Hkeep1 & _); [done | lia |].
    simpl.
    destruct (IH (S t) c1) as (cl' & Hrun & Hlen' & Hkeep'); [done | lia |].
    exists cl'. split; [done|]. split; [lia | done].
Qed.

(** Every one of the first [k] iterations, for [k] less than the number of
    clusters, is a merge. *)
Lemma iterate_trace (step : nat -> clusters_t -> result clusters_t)
    (k : nat) cl :
  merges step -> keeps cl -> k < length cl \/ k = 0 ->
  (forall j, j < k ->
     exists a b, iterate step 0 j cl = Ok a /\
                 iterate step 0 (S j) cl = Ok b /\
                 length a = length cl - j /\ merged a b /\
                 length b = length cl - S j) /\
  (exists a, iterate step 0 k cl = Ok a /\ length a = length cl - k).
Proof.
  intros Hstep Hkeep Hk. split.
  - intros j Hj.
    destruct (iterate_partition step j 0 cl Hstep Hkeep)
      as (a & Ha & Hlen & Hkeepa); [lia|].
    destruct (Hstep (0 + j) a Hkeepa) as (b & Hb & Hlenb & _ & Hm); [lia|].
    exists a, b. split; [done|]. split.
    { rewrite iterate_snoc, Ha. exact Hb. }
    split; [done|]. split; [done | lia].
  - destruct (iterate_partition step k 0 cl Hstep Hkeep Hk)
      as (a & Ha & Hlen & _).
    by exists a.
Qed.
End Scans.

Lemma find_clusters_partition (ar : arith) (g : WeightedGraph)
    (num_clusters : Z) (draws : nat -> nat) :
  unit_weights g = true -> (1 <= num_clusters)%Z ->
  (exists cl,
     find_clusters_greedy ar g num_clusters = Ok cl /\
     is_partition (get_all_vertices g "") cl /\
     length cl = Nat.min (size (get_all_vertices g ""))
                         (Z.to_nat num_clusters)) /\
  (exists cl,
     find_clusters_random ar draws g num_clusters = Ok cl /\
     is_partition (get_all_vertices g "") cl /\
     length cl = Nat.min (size (get_all_vertices g ""))
                         (Z.to_nat num_clusters)).
Proof.
  intros Hunit Hnum.
  assert (length (singletons g) = size (get_all_vertices g "")) as Hn.
  { unfold singletons. by rewrite length_fmap. }
  assert (cluster_inv g (singletons g)
          /\ is_partition (get_all_vertices g "") (singletons g)) as Hkeep.
  { split; [apply singletons_inv | apply singletons_partition]. }
  assert (rounds (singletons g) num_clusters < length (singletons g)
          \/ rounds (singletons g) num_clusters = 0) as Hk.
  { unfold rounds. lia. }
  split.
  - destruct (iterate_partition g (fun _ => greedy_step ar g)
                (rounds (singletons g) num_clusters) 0 (singletons g))
      as (cl & Hrun & Hlen & _ & Hpart); [|done..|].
    { by apply greedy_step_partition. }
    exists cl. split; [done|]. split; [done|].
    rewrite Hlen. unfold rounds. lia.
  - destruct (iterate_partition g (fun t => random_step ar g (draws t))
                (rounds (singletons g) num_clusters) 0 (singletons g))
      as (cl & Hrun & Hlen & _ & Hpart); [|done..|].
    { by apply random_step_partition. }
    exists cl. split; [done|]. split; [done|].
    rewrite Hlen. unfold rounds. lia.
Qed.

(** The iterations of the two clusterings, one by one. *)
Lemma find_clusters_trace (ar : arith) (g : WeightedGraph)
    (num_clusters : Z) (draws : nat -> nat) :
  unit_weights g = true -> (1 <= num_clusters)%Z ->
  let n := size (get_all_vertices g "") in
  let m := Z.to_nat (Z.max (Z.of_nat n - num_clusters) 0) in
  let greedy := fun j =>
    iterate (fun _ => greedy_step ar g) 0 j (singletons g) in
  let random := fun j =>
    iterate (fun t => random_step ar g (draws t)) 0 j (singletons g) in
  length (singletons g) = n /\
  Forall (fun c => size c = 1) (singletons g) /\
  find_clusters_greedy ar g num_clusters = greedy m /\
  find_clusters_random ar draws g num_clusters = random m /\
  (forall j, j < m ->
     exists cl cl', greedy j = Ok cl /\ greedy (S j) = Ok cl' /\
                    length cl = n - j /\ merged cl cl' /\
                    length cl' = n - S j) /\
  (forall j, j < m ->
     exists cl cl', random j = Ok cl /\ random (S j) = Ok cl' /\
                    length cl = n - j /\ merged cl cl' /\
                    length cl' = n - S j) /\
  (exists cl, greedy m = Ok cl /\ length cl = n - m) /\
  (exists cl, random m = Ok cl /\ length cl = n - m) /\
  ((Z.of_nat n <= num_clusters)%Z ->
   find_clusters_greedy ar g num_clusters = Ok (singletons g) /\
   find_clusters_random ar draws g num_clusters = Ok (singletons g)).
Proof.
  intros Hunit Hnum n m greedy random.
  assert (length (singletons g) = n) as Hn.
  { unfold singletons. by rewrite length_fmap. }
  assert (rounds (singletons g) num_clusters = m) as Hrounds.
  { unfold rounds, m. rewrite Hn. lia. }
  assert (cluster_inv g (singletons g)
          /\ is_partition (get_all_vertices g "") (singletons g)) as Hkeep.
  { split; [apply singletons_inv | apply singletons_partition]. }
  assert (m < length (singletons g) \/ m = 0) as Hm.
  { rewrite Hn. unfold m. lia. }
  destruct (iterate_trace g (fun _ => greedy_step ar g) m (singletons g))
    as [Hg1 Hg2]; [by apply greedy_step_partition | done | done |].
  destruct (iterate_trace g (fun t => random_step ar g (draws t)) m
              (singletons g))
    as [Hr1 Hr2]; [by apply random_step_partition | done | done |].
  rewrite Hn in Hg1, Hg2, Hr1, Hr2.
  split; [done|]. split.
  { unfold singletons. apply Forall_fmap, Forall_forall.
    intros x _. apply size_singleton. }
  split. { unfold find_clusters_greedy. by rewrite Hrounds. }
  split. { unfold find_clusters_random. by rewrite Hrounds. }
  split; [exact Hg1|]. split; [exact Hr1|].
  split; [exact Hg2|]. split; [exact Hr2|].
  intros Hge. unfold find_clusters_greedy, find_clusters_random.
  rewrite Hrounds. by replace m with 0 by (unfold m; lia).
Qed.

(** X15: on a weighted graph whose edge weights all lie between 0 and 1
    and for [num_clusters >= 1], [find_clusters_greedy] and
    [find_clusters_random] (whatever the random draws) return a partition
    of the vertices: the clusters are non-empty, pairwise disjoint, and
    every vertex is in one of them; their number is the smaller of the
    vertex count and [num_clusters]. *)
Theorem clusters_partition (ar : arith) (g : WeightedGraph)
    (num_clusters : Z) (draws : nat -> nat) :
  unit_weights g = true -> (1 <= num_clusters)%Z ->
  (exists cl,
     find_clusters_greedy ar g num_clusters = Ok cl /\
     is_partition (get_all_vertices g "") cl /\
     length cl = Nat.min (size (get_all_vertices g ""))
                         (Z.to_nat num_clusters)) /\
  (exists cl,
     find_clusters_random ar draws g num_clusters = Ok cl /\
     is_partition (get_all_vertices g "") cl /\
     length cl = Nat.min (size (get_all_vertices g ""))
                         (Z.to_nat num_clusters)).
Proof. apply find_clusters_partition. Qed.

Lemma clusters_partition_witness :
  exists cl,
    find_clusters_greedy exact_arith book_wgraph 2 = Ok cl /\
    is_partition (get_all_vertices book_wgraph "") cl /\
    length cl = Nat.min (size (get_all_vertices book_wgraph "")) 2.
Proof.
  destruct (clusters_partition exact_arith book_wgraph 2 (fun t => t))
    as [H _].
  - vm_compute. reflexivity.
  - lia.
  - exact H.
Defined.
End ClusteringProperties.

(** * The book graph *)

Section BookGraph.
Import Weighted.
Variable cs : list wcall.
Variable threshold : Q.
Variable score_type : string.

Local Abbreviation rg := (wbuild cs).
Local Abbreviation books := (get_all_vertices (wbuild cs) "book").

(** What the loops of [create_book_graph] keep. *)
Local Abbreviation book_inv bg :=
  (wf bg /\
   (forall k, is_Some (dict_get bg k) <-> k ∈ books) /\
   (forall k v, dict_get bg k = Some v -> kind v = "book") /\
   edges_sound rg threshold score_type bg).

Lemma wsim_comm (g : WeightedGraph) (a b : string) :
  get_similarity_score g a b score_type
  = get_similarity_score g b a score_type.
Proof.
  unfold get_similarity_score. rewrite orb_comm. destruct (_ || _); [done|].
  unfold vertex_at. destruct (dict_get g a) as [va|], (dict_get g b) as [vb|];
    simpl; try done.
  rewrite similarity_score_unweighted_comm.
  by rewrite similarity_score_strict_comm.
Qed.

Lemma wsim_bounds (g : WeightedGraph) (a b : string) (s : Q) :
  get_similarity_score g a b score_type = Ok s -> (0 <= s)%Q /\ (s <= 1)%Q.
Proof.
  unfold get_similarity_score. destruct (_ || _); [done|].
  unfold vertex_at. destruct (dict_get g a) as [va|]; simpl; [|done].
  destruct (dict_get g b) as [vb|]; simpl; [|done].
  destruct (String.eqb score_type "unweighted").
  - intros [= <-]. apply unweighted_score_bounds.
  - apply strict_score_bounds.
Qed.

Lemma book_present (x : string) : x ∈ books -> is_Some (dict_get rg x).
Proof.
  unfold get_all_vertices. simpl. rewrite elem_of_list_to_set.
  intros Hx. apply list_elem_of_fmap in Hx as (v & -> & Hv).
  apply list_elem_of_filter in Hv as [_ Hv].
  rewrite (wf_value_get _ _ (wf_wbuild cs) Hv). by eexists.
Qed.

Lemma book_sim_total (x y : string) :
  x ∈ books -> y ∈ books ->
  exists s, get_similarity_score rg x y score_type = Ok s.
Proof.
  intros Hx Hy. apply book_present in Hx as [vx Hvx].
  apply book_present in Hy as [vy Hvy].
  unfold get_similarity_score.
  rewrite !bool_decide_eq_true_2 by (apply elem_of_all_vertices; by eexists).
  simpl. unfold vertex_at. rewrite Hvx, Hvy. simpl.
  destruct (String.eqb score_type "unweighted"); [by eexists|].
  rewrite (similarity_score_strict_wf _ x y vx vy (wf_wbuild cs) Hvx Hvy).
  by eexists.
Qed.

Lemma new_wg_inv (l : list string) (g : WeightedGraph) :
  wf g ->
  (forall k v, dict_get g k = Some v -> kind v = "book" /\ neighbours v = ∅) ->
  let nw := foldl (fun g x => add_vertex g x "book") g l in
  wf nw /\
  (forall k, is_Some (dict_get nw k) <-> is_Some (dict_get g k) \/ k ∈ l) /\
  (forall k v, dict_get nw k = Some v -> kind v = "book" /\ neighbours v = ∅).
Proof.
  revert g. induction l as [|x l IH]; intros g Hwf Hg; simpl.
  - split; [done|]. split; [|done]. intros k. split; [by left|].
    intros [H|H]; [done | by apply elem_of_nil in H].
  - destruct (IH (add_vertex g x "book")) as (Hwf' & Hkeys & Hkind).
    + by apply wf_add_vertex.
    + intros k v. unfold add_vertex.
      destruct (dict_mem g x) eqn:Hmem; simpl; [apply Hg|].
      rewrite dict_get_add. destruct (dict_get g k) as [v0|] eqn:Hk.
      * intros [= <-]. by apply (Hg k).
      * destruct (String.eqb x k); [|done]. by intros [= <-].
    + split; [done|]. split; [|done]. intros k. rewrite Hkeys.
      rewrite elem_of_cons. unfold add_vertex.
      destruct (dict_mem g x) eqn:Hmem; simpl.
      * apply dict_mem_true in Hmem. split; [tauto|].
        intros [H | [-> | H]]; auto.
      * rewrite dict_get_add. destruct (dict_get g k) as [v0|] eqn:Hk.
        { split; intros _; left; by eexists. }
        destruct (String.eqb_spec x k) as [->|Hne].
        { split; [intros _; right; by left | intros _; left; by eexists]. }
        split; [intros [[? ?]|?]; [done | by right; right]|].
        intros [[? ?] | [-> | ?]]; [done | done | by right].
Qed.

Lemma book_step_inv (x y : string) (bg : WeightedGraph) :
  book_inv bg -> x ∈ books -> y ∈ books ->
  exists bg',
    (if negb (String.eqb x y) then
       s ← get_similarity_score rg x y score_type;
       if Qgt_bool s threshold then
         w ← get_similarity_score rg x y score_type;
         add_edge bg x y w
       else Ok bg
     else Ok bg) = Ok bg' /\ book_inv bg'.
Proof.
  intros (Hwf & Hkeys & Hkind & Hsound) Hx Hy.
  destruct (String.eqb_spec x y) as [Hxy|Hxy]; simpl; [by exists bg|].
  destruct (book_sim_total x y Hx Hy) as [s Hs]. rewrite Hs. simpl.
  destruct (Qgt_bool s threshold) eqn:Hgt; [|by exists bg].
  apply Qgt_bool_lt in Hgt.
  destruct (add_edge bg x y s) as [bg'|e] eqn:Hadd.
  2:{ unfold add_edge in Hadd.
      apply Hkeys, dict_mem_true in Hx. apply Hkeys, dict_mem_true in Hy.
      by rewrite Hx, Hy in Hadd. }
  exists bg'. split; [done|].
  pose proof (wf_add_edge _ _ _ _ _ Hwf Hadd) as Hwf'.
  apply add_edge_Ok in Hadd as (_ & _ & _ & Hget).
  split; [done|]. split; [|split].
  - intros k. rewrite <- Hkeys, Hget. by rewrite fmap_is_Some.
  - intros k v. rewrite Hget. destruct (dict_get bg k) as [v0|] eqn:Hk; [|done].
    simpl. intros [= <-]. rewrite edge_update_kind. by eapply Hkind.
  - intros k v z w. rewrite Hget.
    destruct (dict_get bg k) as [v0|] eqn:Hk; [|done].
    simpl. intros [= <-]. rewrite edge_update_lookup.
    destruct (decide ((y = k /\ z = x) \/ (x = k /\ z = y)))
      as [[[-> ->] | [-> ->]] | Hno].
    + intros [= <-]. split; [done|]. split; [|done]. by rewrite wsim_comm.
    + intros [= <-]. by split.
    + intros Hw. by eapply Hsound.
Qed.

Lemma create_book_graph_inv :
  exists bg, create_book_graph rg threshold score_type = Ok bg /\ book_inv bg.
Proof.
  unfold create_book_graph.
  destruct (new_wg_inv (elements books) init wf_init) as (Hwf & Hkeys & Hkind);
    [done|].
  set (nw := foldl (fun g x => add_vertex g x "book") init (elements books))
    in *.
  assert (book_inv nw) as Hinv.
  { split; [done|]. split; [|split].
    - intros k. rewrite Hkeys, elem_of_elements. simpl.
      split; [intros [[? ?]|?]; done | by right].
    - intros k v Hk. by apply (Hkind k v).
    - intros k v z w Hk Hw. destruct (Hkind k v Hk) as [_ Hn].
      by rewrite Hn, lookup_empty in Hw. }
  assert (forall bg x, book_inv bg -> x ∈ elements (get_all_vertices bg "") ->
                       x ∈ books) as Hin.
  { intros bg x (_ & Hk & _) Hx.
    by apply elem_of_elements, elem_of_all_vertices, Hk in Hx. }
  destruct (for_each_progress
    (fun g x =>
       for_each (fun g y =>
           if negb (String.eqb x y) then
             s ← get_similarity_score rg x y score_type;
             if Qgt_bool s threshold then
               w ← get_similarity_score rg x y score_type;
               add_edge g x y w
             else Ok g
           else Ok g)
         (elements (get_all_vertices g "")) g)
    (fun bg => book_inv bg) (fun _ => True) (fun _ => True)
    (elements (get_all_vertices nw "")) nw) as (bg & Hrun & Hbg & _);
    [done | | by exists bg].
  intros x g Hx Hg. apply (Hin nw) in Hx; [|done].
  destruct (for_each_progress
    (fun g y =>
       if negb (String.eqb x y) then
         s ← get_similarity_score rg x y score_type;
         if Qgt_bool s threshold then
           w ← get_similarity_score rg x y score_type;
           add_edge g x y w
         else Ok g
       else Ok g)
    (fun bg => book_inv bg /\ forall y, y ∈ elements (get_all_vertices g "")
                                        -> y ∈ books)
    (fun _ => True) (fun _ => True)
    (elements (get_all_vertices g "")) g) as (bg & Hrun & [Hbg _] & _).
  - split; [done|]. intros y. by apply Hin.
  - intros y g' Hy [Hg' Hys].
    destruct (book_step_inv x y g' Hg' Hx (Hys y Hy)) as (g'' & -> & Hg'').
    exists g''. split; [done|]. split; [by split | done].
  - exists bg. split; [done|]. split; [done | done].
Qed.
End BookGraph.

Section BookGraphProperties.
Import Weighted Part3.

Lemma book_graph_facts (cs : list wcall) (threshold : Q)
    (score_type : string) :
  exists bg,
    create_book_graph (wbuild cs) threshold score_type = Ok bg /\
    get_all_vertices bg "" = get_all_vertices (wbuild cs) "book" /\
    get_all_vertices bg "book" = get_all_vertices (wbuild cs) "book" /\
    wloop_free bg /\
    edges_sound (wbuild cs) threshold score_type bg /\
    nonneg_weights bg = true /\
    unit_weights bg = true.
Proof.
  destruct (create_book_graph_inv cs threshold score_type)
    as (bg & Hrun & Hwf & Hkeys & Hkind & Hsound).
  assert (forall k v w, (k, v) ∈ bg -> w ∈ weights v ->
                        (0 <= w)%Q /\ (w <= 1)%Q) as Hbounds.
  { intros k v w Hin Hw.
    pose proof (dict_elem_get _ _ _ (wf_keys _ Hwf) Hin) as Hget.
    unfold weights in Hw. apply list_elem_of_fmap in Hw as ([z w'] & -> & Hzw).
    apply elem_of_map_to_list in Hzw. simpl.
    destruct (Hsound _ _ _ _ Hget Hzw) as (_ & Hs & _).
    by eapply wsim_bounds. }
  exists bg. split; [done|].
  split; [|split; [|split; [|split; [done|split]]]].
  - apply set_eq. intros x. by rewrite elem_of_all_vertices, Hkeys.
  - apply set_eq. intros x. rewrite <- Hkeys.
    unfold get_all_vertices at 1. simpl. rewrite elem_of_list_to_set. split.
    + intros Hx. apply list_elem_of_fmap in Hx as (v & -> & Hv).
      apply list_elem_of_filter in Hv as [_ Hv].
      rewrite (wf_value_get _ _ Hwf Hv). by eexists.
    + intros [v Hv]. rewrite <- (wf_item _ Hwf _ _ Hv).
      apply (list_elem_of_fmap_2 item). apply list_elem_of_filter. split.
      * rewrite (Hkind _ _ Hv). reflexivity.
      * apply dict_get_Some_elem in Hv.
        apply (list_elem_of_fmap_2 snd) in Hv. exact Hv.
  - intros k v Hin Hk.
    pose proof (dict_elem_get _ _ _ (wf_keys _ Hwf) Hin) as Hget.
    apply elem_of_dom in Hk as [w Hw].
    by destruct (Hsound _ _ _ _ Hget Hw) as [Hne _].
  - unfold nonneg_weights. apply forallb_forall. intros [k v] Hin.
    apply forallb_forall. intros w Hw. simpl in Hw.
    apply list_elem_of_In in Hin, Hw.
    apply Qle_bool_iff. by destruct (Hbounds k v w Hin Hw).
  - unfold unit_weights. apply forallb_forall. intros [k v] Hin.
    apply forallb_forall. intros w Hw. simpl in Hw.
    apply list_elem_of_In in Hin, Hw.
    destruct (Hbounds k v w Hin Hw) as [H0 H1].
    apply andb_true_iff. split; by apply Qle_bool_iff.
Qed.

(** X16: on a review graph built by [add_vertex] and [add_edge] calls,
    [create_book_graph] raises nothing, for any threshold and either score
    type. The vertices of the graph it returns are the books of the review
    graph, all of kind ['book']; no book is its own neighbour; every edge
    joins two different books whose similarity in the review graph is the
    edge weight and is greater than the threshold; no weight is negative. *)
Theorem create_book_graph_sound (cs : list wcall) (threshold : Q)
    (score_type : string) :
  exists bg,
    create_book_graph (wbuild cs) threshold score_type = Ok bg /\
    get_all_vertices bg "" = get_all_vertices (wbuild cs) "book" /\
    get_all_vertices bg "book" = get_all_vertices (wbuild cs) "book" /\
    wloop_free bg /\
    edges_sound (wbuild cs) threshold score_type bg /\
    nonneg_weights bg = true.
Proof.
  destruct (book_graph_facts cs threshold score_type)
    as (bg & H1 & H2 & H3 & H4 & H5 & H6 & _).
  by exists bg.
Qed.

(** X17: both clusterings succeed on the book graph of any built review
    graph, for any threshold, either score type and any
    [num_clusters >= 1], and return a partition of the books of the review
    graph into the smaller of the book count and [num_clusters] clusters. *)
Theorem cluster_book_graph (ar : arith) (cs : list wcall) (threshold : Q)
    (score_type : string) (num_clusters : Z) (draws : nat -> nat) :
  (1 <= num_clusters)%Z ->
  exists bg,
    create_book_graph (wbuild cs) threshold score_type = Ok bg /\
    (exists cl,
       find_clusters_greedy ar bg num_clusters = Ok cl /\
       is_partition (get_all_vertices (wbuild cs) "book") cl /\
       length cl = Nat.min (size (get_all_vertices (wbuild cs) "book"))
                           (Z.to_nat num_clusters)) /\
    (exists cl,
       find_clusters_random ar draws bg num_clusters = Ok cl /\
       is_partition (get_all_vertices (wbuild cs) "book") cl /\
       length cl = Nat.min (size (get_all_vertices (wbuild cs) "book"))
                           (Z.to_nat num_clusters)).
Proof.
  intros Hnum.
  destruct (book_graph_facts cs threshold score_type)
    as (bg & Hrun & Hall & _ & _ & _ & _ & Hunit).
  exists bg. split; [done|]. rewrite <- Hall.
  by apply find_clusters_partition.
Qed.

Lemma cluster_book_graph_witness :
  exists bg,
    create_book_graph sample_wgraph (1 # 20) "unweighted" = Ok bg /\
    (exists cl,
       find_clusters_greedy exact_arith bg 2 = Ok cl /\
       is_partition (get_all_vertices sample_wgraph "book") cl /\
       length cl = Nat.min (size (get_all_vertices sample_wgraph "book")) 2) /\
    (exists cl,
       find_clusters_random exact_arith (fun t => t) bg 2 = Ok cl /\
       is_partition (get_all_vertices sample_wgraph "book") cl /\
       length cl = Nat.min (size (get_all_vertices sample_wgraph "book")) 2).
Proof.
  apply (cluster_book_graph exact_arith sample_wcalls (1 # 20) "unweighted" 2
           (fun t => t)).
  lia.
Defined.

(** ** The merges of the two clusterings *)

(** C8: for the book graph [bg] of any built review graph, with any
    threshold and either score type, and for every [num_clusters >= 1]:
    the vertices of [bg] are the books, [n] of them; both clusterings start
    from [n] singleton clusters and run exactly [max(n - num_clusters, 0)]
    iterations; each iteration succeeds and is a merge, which unites the
    cluster at one position into the cluster at another position and takes
    it off the list, so that [n - j] clusters stand before the iteration
    numbered [j] and one less after it; when [num_clusters >= n] the
    singleton clusters are returned unchanged. This holds whatever the
    random draws and the arithmetic. *)
Theorem clustering_merge_count (ar : arith) (cs : list wcall)
    (threshold : Q) (score_type : string) (num_clusters : Z)
    (draws : nat -> nat) :
  (1 <= num_clusters)%Z ->
  exists bg,
    create_book_graph (wbuild cs) threshold score_type = Ok bg /\
    get_all_vertices bg "" = get_all_vertices (wbuild cs) "book" /\
    let n := size (get_all_vertices bg "") in
    let m := Z.to_nat (Z.max (Z.of_nat n - num_clusters) 0) in
    let greedy := fun j =>
      iterate (fun _ => greedy_step ar bg) 0 j (singletons bg) in
    let random := fun j =>
      iterate (fun t => random_step ar bg (draws t)) 0 j (singletons bg) in
    length (singletons bg) = n /\
    Forall (fun c => size c = 1) (singletons bg) /\
    find_clusters_greedy ar bg num_clusters = greedy m /\
    find_clusters_random ar draws bg num_clusters = random m /\
    (forall j, j < m ->
       exists cl cl', greedy j = Ok cl /\ greedy (S j) = Ok cl' /\
                      length cl = n - j /\ merged cl cl' /\
                      length cl' = n - S j) /\
    (forall j, j < m ->
       exists cl cl', random j = Ok cl /\ random (S j) = Ok cl' /\
                      length cl = n - j /\ merged cl cl' /\
                      length cl' = n - S j) /\
    (exists cl, greedy m = Ok cl /\ length cl = n - m) /\
    (exists cl, random m = Ok cl /\ length cl = n - m) /\
    ((Z.of_nat n <= num_clusters)%Z ->
     find_clusters_greedy ar bg num_clusters = Ok (singletons bg) /\
     find_clusters_random ar draws bg num_clusters = Ok (singletons bg)).
Proof.
  intros Hnum.
  destruct (book_graph_facts cs threshold score_type)
    as (bg & Hrun & Hall & _ & _ & _ & _ & Hunit).
  exists bg. split; [done|]. split; [done|].
  by apply find_clusters_trace.
Qed.

Lemma clustering_merge_count_witness :
  exists bg,
    create_book_graph sample_wgraph (1 # 20) "unweighted" = Ok bg /\
    exists cl,
      find_clusters_greedy exact_arith bg 2 = Ok cl /\
      length cl = size (get_all_vertices bg "") - 2.
Proof.
  destruct (clustering_merge_count exact_arith sample_wcalls (1 # 20)
              "unweighted" 2 (fun t => t))
    as (bg & Hrun & Hall & _ & _ & Hgreedy & _ & _ & _ & [cl [Hcl Hlen]] & _).
  - lia.
  - exists bg. split; [exact Hrun|]. exists cl. split.
    + rewrite Hgreedy. exact Hcl.
    + rewrite Hlen. rewrite Hall. vm_compute. reflexivity.
Defined.
End BookGraphProperties.

(** * Further properties of the recommendations *)

Lemma for_each_fixed {A S : Type} (f : S -> A -> result S) (xs : list A)
    (s : S) (e : error) :
  (forall x, x ∈ xs -> f s x = Ok s \/ f s x = Raise e) ->
  for_each f xs s = Ok s \/ for_each f xs s = Raise e.
Proof.
  induction xs as [|x xs IH]; intros Hf; simpl; [by left|].
  destruct (Hf x) as [-> | ->]; [apply list_elem_of_here | | by right].
  simpl. apply IH. intros y Hy. apply Hf. by apply list_elem_of_further.
Qed.

Lemma for_each_keeps {A S : Type} (f : S -> A -> result S) (P : S -> Prop)
    (xs : list A) (s s' : S) :
  (forall s x s', P s -> f s x = Ok s' -> P s') ->
  P s -> for_each f xs s = Ok s' -> P s'.
Proof.
  intros Hf. revert s. induction xs as [|x xs IH]; intros s Hs; simpl.
  - by intros [= <-].
  - destruct (f s x) as [s1|e] eqn:Hx; simpl; [|done].
    apply IH. by eapply Hf.
Qed.

Section RankEdges.
Context {V : Type}.
Variable score : V -> result Q.
Variable item_of : V -> string.

Lemma rank_absent (l : list V) (limit : Z) :
  (forall x, score x = Raise KeyError) ->
  rank score item_of l limit =
    match l with
    | [] => Ok []
    | _ :: _ => Raise KeyError
    end.
Proof.
  intros Hscore. destruct l as [|v l].
  - unfold rank, rank_loops, drop_zero, cut. simpl.
    destruct (limit <=? Z.of_nat 0)%Z; [|done].
    unfold slice_to. by destruct (0 <=? limit + 1)%Z; rewrite take_nil.
  - assert (rank_loops score item_of (v :: l) = Ok (v :: l)
            \/ rank_loops score item_of (v :: l) = Raise KeyError) as Hloops.
    { unfold rank_loops. apply for_each_fixed. intros i Hi.
      apply elem_of_seq in Hi. unfold rank_inner.
      apply for_each_fixed. intros j Hj. apply elem_of_seq in Hj.
      unfold rank_body. destruct (j <? i); [|by left].
      destruct (lookup_lt_is_Some_2 (v :: l) i) as [a ->]; [lia|].
      destruct (lookup_lt_is_Some_2 (v :: l) j) as [b ->]; [lia|].
      rewrite (Hscore a). simpl. by right. }
    unfold rank. destruct Hloops as [-> | ->]; [|done].
    unfold drop_zero. cbn [mbind result_bind filter_r].
    by rewrite (Hscore v).
Qed.

Lemma swap_length (l l' : list V) (i j : nat) :
  swap l i j = Ok l' -> length l' = length l.
Proof.
  unfold swap. destruct (l !! i), (l !! j); try done.
  intros [= <-]. by rewrite !length_insert.
Qed.

Lemma rank_loops_length (l l' : list V) :
  rank_loops score item_of l = Ok l' -> length l' = length l.
Proof.
  unfold rank_loops.
  apply (for_each_keeps _ (fun l' => length l' = length l)); [|done].
  intros l1 i l2 Hl1. unfold rank_inner.
  apply (for_each_keeps _ (fun l' => length l' = length l)); [|done].
  intros l3 j l4 Hl3. unfold rank_body.
  destruct (j <? i); [|by intros [= <-]].
  destruct (l3 !! i), (l3 !! j); try done.
  destruct (score v) as [sa|]; simpl; [|done].
  destruct (score v0) as [sb|]; simpl; [|done].
  destruct (Qgt_bool sa sb).
  - intros Hs. apply swap_length in Hs. congruence.
  - destruct (_ && _); [|by intros [= <-]].
    intros Hs. apply swap_length in Hs. congruence.
Qed.

Lemma rank_size (l : list V) (limit : Z) (out : list (entry V)) :
  rank score item_of l limit = Ok out -> (0 <= limit)%Z ->
  (Z.of_nat (length out) <= limit + 1)%Z /\
  length out <= length l /\
  (all_titles out = true \/ (Z.of_nat (length out) < limit)%Z).
Proof.
  unfold rank. destruct (rank_loops score item_of l) as [l1|] eqn:H1;
    simpl; [|done].
  destruct (drop_zero score l1) as [l2|] eqn:H2; simpl; [|done].
  intros [= <-] Hlimit.
  apply rank_loops_length in H1. apply filter_r_length in H2.
  unfold cut. destruct (Z.leb_spec limit (Z.of_nat (length l2))) as [Hle|Hgt].
  - rewrite length_fmap. unfold slice_to.
    destruct (Z.leb_spec 0 (limit + 1)) as [_|]; [|lia].
    rewrite length_take. split; [lia|]. split; [lia|]. left.
    unfold all_titles. apply forallb_forall. intros e He.
    apply list_elem_of_In, list_elem_of_fmap in He as (x & -> & _). done.
  - rewrite length_fmap. split; [lia|]. split; [lia|]. by right.
Qed.
End RankEdges.

(** X18: for a query book that is not in the graph, [recommend_books]
    raises [KeyError] as soon as the graph holds a book vertex, and returns
    the empty list when it holds none; on [Graph] and on [WeightedGraph]
    with either score type, for every limit. *)
Theorem recommend_books_absent (g : Part1.Graph)
    (wg : Weighted.WeightedGraph) (book score_type : string) (limit : Z) :
  dict_get g book = None -> dict_get wg book = None ->
  Part1.recommend_books g book limit =
    match Part1.pos_books g with
    | [] => Ok []
    | _ :: _ => Raise KeyError
    end /\
  Weighted.recommend_books wg book limit score_type =
    match Weighted.pos_books wg with
    | [] => Ok []
    | _ :: _ => Raise KeyError
    end.
Proof.
  intros Hg Hwg. split.
  - apply rank_absent. intros x.
    unfold Part1.score_to, Part1.vertex_at. by rewrite Hg.
  - apply rank_absent. intros x.
    unfold Weighted.score_to, Weighted.vertex_at. by rewrite Hwg.
Qed.

Lemma recommend_books_absent_witness :
  Part1.recommend_books sample_graph "Z" 3 = Raise KeyError /\
  Weighted.recommend_books sample_wgraph "Z" 3 "strict" = Raise KeyError.
Proof.
  apply (recommend_books_absent sample_graph sample_wgraph "Z" "strict" 3).
  - vm_compute. reflexivity.
  - vm_compute. reflexivity.
Defined.

(** X19: for a limit of at least 0, a list returned by [recommend_books]
    has at most [limit + 1] entries and at most as many as the graph has
    book vertices; it holds titles only, unless it has fewer than [limit]
    entries. *)
Theorem recommend_books_size (g : Part1.Graph) (wg : Weighted.WeightedGraph)
    (book score_type : string) (limit : Z)
    (out : list (entry Part1._Vertex))
    (wout : list (entry Weighted._WeightedVertex)) :
  (0 <= limit)%Z ->
  (Part1.recommend_books g book limit = Ok out ->
   (Z.of_nat (length out) <= limit + 1)%Z /\
   length out <= length (Part1.pos_books g) /\
   (all_titles out = true \/ (Z.of_nat (length out) < limit)%Z)) /\
  (Weighted.recommend_books wg book limit score_type = Ok wout ->
   (Z.of_nat (length wout) <= limit + 1)%Z /\
   length wout <= length (Weighted.pos_books wg) /\
   (all_titles wout = true \/ (Z.of_nat (length wout) < limit)%Z)).
Proof.
  intros Hlimit. split; intros Hrun; by eapply rank_size.
Qed.

Lemma recommend_books_size_witness :
  (Z.of_nat (length [@Title Part1._Vertex "C"; Title "B"]) <= 1 + 1)%Z /\
  length [@Title Part1._Vertex "C"; Title "B"]
    <= length (Part1.pos_books sample_graph) /\
  (all_titles [@Title Part1._Vertex "C"; Title "B"] = true \/
   (Z.of_nat (length [@Title Part1._Vertex "C"; Title "B"]) < 1)%Z).
Proof.
  destruct (recommend_books_size sample_graph sample_wgraph "C" "strict" 1
              [Title "C"; Title "B"] [Title "C"]) as [H _].
  - lia.
  - apply H. vm_compute. reflexivity.
Defined.

Section WeightCases.
Import Weighted.

(** X20: [get_weight] raises [KeyError] exactly when one of the two items is
    not a vertex; for two vertices it returns the stored weight when they
    are adjacent and 0 when they are not. *)
Theorem get_weight_cases (g : WeightedGraph) (a b : string) :
  match get_weight g a b with
  | Ok w =>
      is_Some (dict_get g a) /\ is_Some (dict_get g b) /\
      if adjacent g a b
      then exists va, dict_get g a = Some va /\ neighbours va !! b = Some w
      else w = 0%Q
  | Raise e => e = KeyError /\ (dict_get g a = None \/ dict_get g b = None)
  end.
Proof.
  unfold get_weight, vertex_at.
  destruct (dict_get g a) as [va|] eqn:Ha; simpl; [|by split; [|left]].
  destruct (dict_get g b) as [vb|] eqn:Hb; simpl; [|by split; [|right]].
  split; [by eexists|]. split; [by eexists|].
  destruct (adjacent g a b) eqn:Hadj.
  - apply adjacent_true in Hadj as (u & Hu & _ & [w Hw]).
    rewrite Ha in Hu. injection Hu as <-. exists va. by rewrite Hw.
  - destruct (neighbours va !! b) as [w|] eqn:Hw; [|done].
    assert (adjacent g a b = true) as Hadj'; [|congruence].
    apply adjacent_true. exists va. split; [done|]. split; [|by eexists].
    apply dict_mem_true. by eexists.
Qed.
End WeightCases.

(** * The weighted graph as a graph *)

Section Erasure.
Implicit Types (g : Weighted.WeightedGraph) (a b k : string).

Lemma dict_get_erase g k : dict_get (erase g) k = erase_vertex <$> dict_get g k.
Proof.
  unfold erase. induction g as [|[k0 v0] g IH]; simpl; [done|].
  by destruct (String.eqb k0 k).
Qed.

Lemma dict_mem_erase g k : dict_mem (erase g) k = dict_mem g k.
Proof. unfold dict_mem. rewrite dict_get_erase. by destruct (dict_get g k). Qed.

Lemma dict_keys_erase g : dict_keys (erase g) = dict_keys g.
Proof.
  unfold erase, dict_keys. induction g as [|[k0 v0] g IH]; simpl; [done|].
  by rewrite IH.
Qed.

Lemma dict_values_erase g :
  dict_values (erase g) = map erase_vertex (dict_values g).
Proof.
  unfold erase, dict_values. induction g as [|[k0 v0] g IH]; simpl; [done|].
  by rewrite IH.
Qed.

Lemma erase_alter g a b (w : Q) :
  erase (dict_alter (Weighted.set_neighbour a w) b g)
  = dict_alter (Part1.add_neighbour a) b (erase g).
Proof.
  unfold erase. induction g as [|[k0 v0] g IH]; simpl; [done|].
  destruct (String.eqb k0 b); simpl.
  - f_equal. f_equal. unfold erase_vertex, Part1.add_neighbour. simpl.
    f_equal. rewrite dom_insert_L. set_solver.
  - by rewrite IH.
Qed.

Lemma erase_do_wcall g (c : wcall) :
  erase (do_wcall g c) = do_call (erase g) (forget c).
Proof.
  destruct c as [i kd | a b w]; simpl.
  - unfold Weighted.add_vertex, Part1.add_vertex. rewrite dict_mem_erase.
    destruct (dict_mem g i); simpl; [done|].
    unfold dict_add, erase. rewrite map_app. simpl.
    unfold erase_vertex. simpl. by rewrite dom_empty_L.
  - unfold Weighted.add_edge, Part1.add_edge. rewrite !dict_mem_erase.
    destruct (dict_mem g a && dict_mem g b); [|done].
    by rewrite !erase_alter.
Qed.

Lemma erase_wbuild (wcs : list wcall) :
  erase (wbuild wcs) = build (map forget wcs).
Proof.
  unfold wbuild, build.
  change Part1.init with (erase Weighted.init).
  generalize Weighted.init. induction wcs as [|c wcs IH]; intros g; simpl.
  - done.
  - by rewrite IH, erase_do_wcall.
Qed.

Lemma filter_kind_erase (K : string) (l : list Weighted._WeightedVertex) :
  filter (fun v => String.eqb (Part1.kind v) K = true) (map erase_vertex l)
  = map erase_vertex
        (filter (fun v => String.eqb (Weighted.kind v) K = true) l).
Proof.
  induction l as [|v l IH]; [done|]. simpl. rewrite !filter_cons. simpl.
  destruct (decide _); simpl; by rewrite IH.
Qed.

Lemma similarity_score_erase (va vb : Weighted._WeightedVertex) :
  Part1.similarity_score (erase_vertex va) (erase_vertex vb)
  = Weighted.similarity_score_unweighted va vb.
Proof.
  unfold Part1.similarity_score, Weighted.similarity_score_unweighted.
  unfold Part1.degree, Weighted.degree. simpl. by rewrite !size_dom.
Qed.

(** X21: a weighted graph built by a sequence of calls, with its weights
    dropped, is the [Graph] built by the same calls without the weights;
    the two have the same vertices of every kind, the same adjacency and
    neighbour sets, and the similarity of the [Graph] is the unweighted
    similarity of the [WeightedGraph]. *)
Theorem weighted_graph_as_graph (wcs : list wcall) (a b kind_ : string) :
  erase (wbuild wcs) = build (map forget wcs) /\
  Part1.get_all_vertices (build (map forget wcs)) kind_
    = Weighted.get_all_vertices (wbuild wcs) kind_ /\
  Part1.adjacent (build (map forget wcs)) a b
    = Weighted.adjacent (wbuild wcs) a b /\
  Part1.get_neighbours (build (map forget wcs)) a
    = Weighted.get_neighbours (wbuild wcs) a /\
  Part1.get_similarity_score (build (map forget wcs)) a b
    = Weighted.get_similarity_score (wbuild wcs) a b "unweighted".
Proof.
  rewrite <- erase_wbuild. generalize (wbuild wcs). intros g.
  assert (forall K, Part1.get_all_vertices (erase g) K
                    = Weighted.get_all_vertices g K) as Hall.
  { intros K. unfold Part1.get_all_vertices, Weighted.get_all_vertices.
    rewrite dict_keys_erase, dict_values_erase, filter_kind_erase.
    by rewrite <- list_fmap_compose. }
  split; [done|]. split; [apply Hall|]. split; [|split].
  - unfold Part1.adjacent, Weighted.adjacent.
    rewrite !dict_mem_erase, dict_get_erase.
    by destruct (dict_get g a).
  - unfold Part1.get_neighbours, Weighted.get_neighbours.
    rewrite dict_mem_erase, dict_get_erase. by destruct (dict_get g a).
  - unfold Part1.get_similarity_score, Weighted.get_similarity_score.
    rewrite !Hall. destruct (_ || _); [done|].
    unfold Part1.vertex_at, Weighted.vertex_at. rewrite !dict_get_erase.
    destruct (dict_get g a) as [va|]; simpl; [|done].
    destruct (dict_get g b) as [vb|]; simpl; [|done].
    by rewrite similarity_score_erase.
Qed.
End Erasure.

Section RankMap.
Context {V W : Type}.
Variable h : W -> V.
Variable score : V -> result Q.
Variable item_of : V -> string.
Variable wscore_of : W -> result Q.
Variable witem_of : W -> string.
Hypothesis Hscore : forall x, score (h x) = wscore_of x.
Hypothesis Hitem : forall x, item_of (h x) = witem_of x.

Lemma for_each_map {A : Type} (f : list V -> A -> result (list V))
    (f' : list W -> A -> result (list W)) (xs : list A) (l : list W) :
  (forall l x, f (map h l) x = result_map (map h) (f' l x)) ->
  for_each f xs (map h l) = result_map (map h) (for_each f' xs l).
Proof.
  intros Hf. revert l. induction xs as [|x xs IH]; intros l; simpl; [done|].
  rewrite Hf. destruct (f' l x) as [l'|e]; simpl; [apply IH | done].
Qed.

Lemma swap_map (l : list W) (i j : nat) :
  swap (map h l) i j = result_map (map h) (swap l i j).
Proof.
  unfold swap. rewrite !list_lookup_fmap.
  destruct (l !! i) as [a|]; simpl; [|done].
  destruct (l !! j) as [b|]; simpl; [|done].
  by rewrite !list_fmap_insert.
Qed.

Lemma rank_body_map (i : nat) (l : list W) (j : nat) :
  rank_body score item_of i (map h l) j
  = result_map (map h) (rank_body wscore_of witem_of i l j).
Proof.
  unfold rank_body. destruct (j <? i); [|done].
  rewrite !list_lookup_fmap.
  destruct (l !! i) as [a|]; simpl; [|done].
  destruct (l !! j) as [b|]; simpl; [|done].
  rewrite !Hscore, !Hitem.
  destruct (wscore_of a) as [sa|]; simpl; [|done].
  destruct (wscore_of b) as [sb|]; simpl; [|done].
  destruct (Qgt_bool sa sb); [apply swap_map|].
  destruct (_ && _); [apply swap_map | done].
Qed.

Lemma rank_loops_map (l : list W) :
  rank_loops score item_of (map h l)
  = result_map (map h) (rank_loops wscore_of witem_of l).
Proof.
  unfold rank_loops. rewrite length_fmap. apply for_each_map.
  intros l1 i. unfold rank_inner. rewrite length_fmap. apply for_each_map.
  intros l2 j. apply rank_body_map.
Qed.

Lemma drop_zero_map (l : list W) :
  drop_zero score (map h l) = result_map (map h) (drop_zero wscore_of l).
Proof.
  unfold drop_zero. induction l as [|x l IH]; simpl; [done|].
  rewrite Hscore. destruct (wscore_of x) as [s|]; simpl; [|done].
  rewrite IH. destruct (filter_r _ l) as [r|]; simpl; [|done].
  by destruct (Qnonzero s).
Qed.

Lemma cut_map (l : list W) (limit : Z) :
  cut item_of (map h l) limit = map (entry_map h) (cut witem_of l limit).
Proof.
  unfold cut. rewrite length_fmap.
  destruct (limit <=? Z.of_nat (length l))%Z.
  - unfold slice_to. rewrite length_fmap.
    destruct (0 <=? limit + 1)%Z; rewrite <- fmap_take, <- !list_fmap_compose;
      apply list_fmap_ext; intros ? x _; simpl; by rewrite Hitem.
  - by rewrite <- !list_fmap_compose.
Qed.

Lemma rank_map (l : list W) (limit : Z) :
  rank score item_of (map h l) limit
  = result_map (map (entry_map h)) (rank wscore_of witem_of l limit).
Proof.
  unfold rank. rewrite rank_loops_map.
  destruct (rank_loops wscore_of witem_of l) as [l1|]; simpl; [|done].
  rewrite drop_zero_map.
  destruct (drop_zero wscore_of l1) as [l2|]; simpl; [|done].
  by rewrite cut_map.
Qed.
End RankMap.

(** X22: on the [Graph] built by the same calls without the weights,
    [recommend_books] returns what [WeightedGraph.recommend_books] returns
    with the unweighted score: the same error, or the same list with every
    vertex object replaced by its unweighted counterpart. *)
Theorem recommend_books_unweighted (wcs : list wcall) (book : string)
    (limit : Z) :
  Part1.recommend_books (build (map forget wcs)) book limit
  = result_map (map (entry_map erase_vertex))
      (Weighted.recommend_books (wbuild wcs) book limit "unweighted").
Proof.
  rewrite <- erase_wbuild. generalize (wbuild wcs). intros g.
  unfold Part1.recommend_books, Weighted.recommend_books.
  unfold Part1.pos_books, Weighted.pos_books.
  rewrite dict_values_erase, filter_kind_erase.
  apply rank_map; [|done].
  intros x. unfold Part1.score_to, Weighted.score_to.
  unfold Part1.vertex_at, Weighted.vertex_at. rewrite dict_get_erase.
  destruct (dict_get g book) as [vb|]; simpl; [|done].
  by rewrite similarity_score_erase.
Qed.
